(** * Benford's-law fraud heuristic: a model of [benford.py]

    The development embeds the two computational functions of the program,
    [count_first_digits] and [get_expected_counts], together with the
    pieces of the Python run time they rely on (exceptions, [str], [int],
    [round], dictionaries, binary64 arithmetic), and then states the
    properties of the specification about them.  The computing part of
    [plot_results], [chi_squared_test], [main] and the loop of the script
    follow, with further properties of the whole.  Reading the files,
    drawing, and the statistical test of [scipy.stats.chisquare] are left
    to their libraries: they are parameters of the program, of which
    nothing is assumed.

    Conventions.  A function that may raise returns a [result]; the counter,
    which builds a table while it reads the series, is written in a state
    monad over the two objects.  Python's [int] is [Z].  Strings are over
    8-bit characters, among which only 0 to 9 are decimal digits.  Floats
    in [get_expected_counts] are binary64 numbers with their rounding; a
    float met as a value of the series is given by what [repr] prints of
    it. *)

From Stdlib Require Import ZArith QArith Qabs Qpower Qround List String Ascii Bool Lia Lqa.
From Stdlib Require Import Permutation.
From Stdlib Require Import DecimalString DecimalFacts DecimalPos.
From Stdlib Require Import PrimFloat FloatOps.
From Stdlib Require Uint63.
Import ListNotations.

Local Open Scope Z_scope.

(* ================================================================== *)
(** * Part I: definitions *)
(* ================================================================== *)

(** ** Exceptions and results *)

(** The reason carried by a [ValueError].  Python has one class; the
    constructors tell the raise sites apart. *)
Inductive value_error : Type :=
| WrongDataFormat (type_text : string)  (* benford.py, line 66 *)
| InvalidLiteral (literal : string)     (* int() on a non-digit *)
| CannotConvertNaN.                     (* round(nan) *)

Inductive exn : Type :=
| ValueError (why : value_error)
| KeyError (key : Z)
| IndexError
| OverflowError.

Inductive result (A : Type) : Type :=
| Ok (a : A)
| Raise (e : exn).

Arguments Ok {A} a.
Arguments Raise {A} e.

Definition rbind {A B : Type} (r : result A) (k : A -> result B) : result B :=
  match r with
  | Ok a => k a
  | Raise e => Raise e
  end.

Declare Scope result_scope.
Delimit Scope result_scope with result.
Notation "x <- r ;; k" := (rbind r (fun x => k))
  (at level 61, r at next level, right associativity) : result_scope.
Notation "' pat <- r ;; k" := (rbind r (fun x => match x with pat => k end))
  (at level 61, pat pattern, r at next level, right associativity) : result_scope.

(** [[f(x) for x in xs]] for an [f] that may raise: the first exception
    aborts the comprehension. *)
Fixpoint rmap {A B : Type} (f : A -> result B) (xs : list A) : result (list B) :=
  match xs with
  | [] => Ok []
  | x :: xs' =>
      (y <- f x ;; ys <- rmap f xs' ;; Ok (y :: ys))%result
  end.

(** ** Python values met in a series *)

(** What [repr] needs of a float: the sign and, for a finite number, the
    shortest digit string that reads back as the same binary64 value and the
    position of the decimal point relative to its start (the output of the
    run time's [dtoa]).  [0.0456] is [FDec false "456" (-1)], [-55.0] is
    [FDec true "55" 2], zero is [FDec _ "0" 1]. *)
Inductive pyfloat : Type :=
| FNan
| FInf (negative : bool)
| FDec (negative : bool) (digits : string) (decpt : Z).

(** The values that pass [isinstance(value, (int, float))]; [bool] is a
    subclass of [int], so [True] and [False] are among them. *)
Inductive number : Type :=
| PyInt (n : Z)
| PyBool (b : bool)
| PyFloat (f : pyfloat).

(** A value of the series: a number, a [str], or any other object, which
    carries the text of its [type(value)]. *)
Inductive value : Type :=
| VNum (x : number)
| VStr (s : string)
| VOther (type_text : string).

(** ** [str] of a number *)

Local Open Scope string_scope.

(** [str] of an [int]: its decimal digits, after a minus sign when it is
    negative.  From version 3.11 on the interpreter refuses, by a setting
    that can be changed or switched off, to convert an [int] of more than
    4300 digits; the setting is not modelled, and a property that speaks of
    every [int] is about the ints the interpreter in use converts. *)
Definition str_int (n : Z) : string := NilZero.string_of_int (Z.to_int n).

Definition str_bool (b : bool) : string := if b then "True" else "False".

Fixpoint zeros (n : nat) : string :=
  match n with
  | O => ""
  | S n' => String "0" (zeros n')
  end.

Definition sign_text (negative : bool) : string := if negative then "-" else "".

(** The exponent of the scientific form, printed as C's [%+.02d]. *)
Definition exponent_text (e : Z) : string :=
  let body := NilZero.string_of_int (Z.to_int (Z.abs e)) in
  (if (e <? 0)%Z then "-" else "+")
    ++ (if (Z.abs e <? 10)%Z then "0" else "") ++ body.

(** [repr] of a float: scientific form when the decimal point falls at or
    left of the fourth leading zero or right of the sixteenth digit, fixed
    form otherwise, always with a fractional part in fixed form. *)
Definition str_float (f : pyfloat) : string :=
  match f with
  | FNan => "nan"
  | FInf negative => sign_text negative ++ "inf"
  | FDec negative digits decpt =>
      let n := Z.of_nat (String.length digits) in
      sign_text negative ++
      (if ((decpt <=? -4) || (16 <? decpt))%Z then
         match digits with
         | EmptyString => ""
         | String d EmptyString => String d "e" ++ exponent_text (decpt - 1)
         | String d rest => String d ("." ++ rest) ++ "e" ++ exponent_text (decpt - 1)
         end
       else if (decpt <=? 0)%Z then
         "0." ++ zeros (Z.to_nat (- decpt)) ++ digits
       else if (decpt <? n)%Z then
         substring 0 (Z.to_nat decpt) digits ++ "." ++
         substring (Z.to_nat decpt) (Z.to_nat (n - decpt)) digits
       else
         digits ++ zeros (Z.to_nat (decpt - n)) ++ ".0")
  end.

(** [str(value)] for a number. *)
Definition str (x : number) : string :=
  match x with
  | PyInt n => str_int n
  | PyBool b => str_bool b
  | PyFloat f => str_float f
  end.

(** ** Indexing and [int] on one character *)

(** [s[0]]: the one-character string at index 0, [IndexError] on [''].  *)
Definition getitem0 (s : string) : result ascii :=
  match s with
  | EmptyString => Raise IndexError
  | String c _ => Ok c
  end.

Definition is_decimal_digit (c : ascii) : bool :=
  let n := Z.of_nat (nat_of_ascii c) in ((48 <=? n) && (n <=? 57))%Z.

(** [int(c)] for a one-character string [c]: the digit's value, and
    [ValueError] (invalid literal) for a sign, a point, a letter, a blank. *)
Definition int_of_char (c : ascii) : result Z :=
  if is_decimal_digit c then Ok (Z.of_nat (nat_of_ascii c) - 48)
  else Raise (ValueError (InvalidLiteral (String c ""))).

(** ** The digit extraction of [count_first_digits] (lines 61 to 66) *)

Definition first_digit (v : value) : result Z :=
  match v with
  | VNum x => (c <- getitem0 (str x) ;; int_of_char c)%result
  | VStr s => (c <- getitem0 s ;; int_of_char c)%result
  | VOther ty => Raise (ValueError (WrongDataFormat ty))
  end.

Local Close Scope string_scope.

(** ** Dictionaries with integer keys and counts *)

(** A [dict] keeps its items in insertion order. *)
Definition dict : Type := list (Z * Z).

(** [range(a, b)] *)
Definition range (a b : Z) : list Z :=
  map (fun i => a + Z.of_nat i) (seq 0 (Z.to_nat (b - a))).

(** [d[k]], [KeyError] when [k] is not a key. *)
Fixpoint dict_get (d : dict) (k : Z) : result Z :=
  match d with
  | [] => Raise (KeyError k)
  | (k', v) :: d' => if k' =? k then Ok v else dict_get d' k
  end.

(** [d[k] = v]: the item is replaced where it stands, or appended. *)
Fixpoint dict_set (d : dict) (k v : Z) : dict :=
  match d with
  | [] => [(k, v)]
  | (k', v') :: d' =>
      if k' =? k then (k, v) :: d' else (k', v') :: dict_set d' k v
  end.

(** [d[k] += 1]: the read comes first and raises on a missing key. *)
Definition dict_incr (d : dict) (k : Z) : result dict :=
  (v <- dict_get d k ;; Ok (dict_set d k (v + 1)))%result.

(** Tuples compare lexicographically. *)
Definition item_leb (x y : Z * Z) : bool :=
  (fst x <? fst y) || ((fst x =? fst y) && (snd x <=? snd y)).

Fixpoint insert_item (x : Z * Z) (l : list (Z * Z)) : list (Z * Z) :=
  match l with
  | [] => [x]
  | y :: l' => if item_leb x y then x :: y :: l' else y :: insert_item x l'
  end.

(** [sorted(items)] *)
Fixpoint sorted (l : list (Z * Z)) : list (Z * Z) :=
  match l with
  | [] => []
  | x :: l' => insert_item x (sorted l')
  end.

(** ** [count_first_digits] *)

(** The objects the call can reach: the series it is given and the table it
    builds.  An exception leaves both as they are at the raise. *)
Record heap : Type := Heap {
  pandas_series : list value;
  first_digits : dict
}.

Definition M (A : Type) : Type := heap -> result A * heap.

Definition ret {A : Type} (a : A) : M A := fun h => (Ok a, h).

Definition bind {A B : Type} (m : M A) (k : A -> M B) : M B :=
  fun h =>
    match m h with
    | (Ok a, h') => k a h'
    | (Raise e, h') => (Raise e, h')
    end.

Definition lift {A : Type} (r : result A) : M A := fun h => (r, h).

Declare Scope heap_scope.
Delimit Scope heap_scope with heap.
Notation "x <- m ;; k" := (bind m (fun x => k))
  (at level 61, m at next level, right associativity) : heap_scope.
Notation "m ;; k" := (bind m (fun _ => k))
  (at level 61, right associativity) : heap_scope.

(** Reading the series (what [for value in pandas_series] iterates over). *)
Definition read_series : M (list value) := fun h => (Ok (pandas_series h), h).

Definition read_table : M dict := fun h => (Ok (first_digits h), h).

Definition write_table (d : dict) : M unit :=
  fun h => (Ok tt, Heap (pandas_series h) d).

Fixpoint for_each {A : Type} (xs : list A) (body : A -> M unit) : M unit :=
  match xs with
  | [] => ret tt
  | x :: xs' => (body x ;; for_each xs' body)%heap
  end.

(** The body of the loop, lines 61 to 68. *)
Definition count_one (v : value) : M unit :=
  (d <- lift (first_digit v) ;;
   t <- read_table ;;
   t' <- lift (dict_incr t d) ;;
   write_table t')%heap.

Definition count_first_digits : M (list Z) :=
  (write_table (map (fun i => (i, 0)) (range 1 10)) ;;
   values <- read_series ;;
   for_each values count_one ;;
   t <- read_table ;;
   ret (map snd (sorted t)))%heap.

(** The call on a series, with the table not yet built: its outcome and the
    heap it leaves. *)
Definition call_count_first_digits (series : list value) : result (list Z) * heap :=
  count_first_digits (Heap series []).

(** FrequencyCounter: the outcome of the call. *)
Definition FrequencyCounter (series : list value) : result (list Z) :=
  fst (call_count_first_digits series).

(** ** Binary64 arithmetic *)

(** A Python float in arithmetic: a finite binary64 number, given by its
    exact value, an infinity, or a NaN.  The sign of a zero is not kept;
    nothing below depends on it. *)
Inductive float64 : Type :=
| Finite (q : Q)
| Infinite (negative : bool)
| NaN.

(** [2^k] for an integer [k] of either sign. *)
Definition pow2 (k : Z) : Q := (2 ^ k)%Q.

(** The floor of the base-2 logarithm of a positive rational. *)
Definition floor_log2 (q : Q) : Z :=
  let d := Z.log2 (Qnum q) - Z.log2 (Zpos (Qden q)) in
  if Qle_bool (pow2 d) q then d else d - 1.

(** The integer nearest to a rational, a tie going to the even one. *)
Definition round_half_even (q : Q) : Z :=
  let n := Qnum q in
  let d := Zpos (Qden q) in
  let f := n / d in
  let r := n mod d in
  if 2 * r <? d then f
  else if d <? 2 * r then f + 1
  else if Z.even f then f else f + 1.

Definition Qsign (q : Q) : bool := Qnum q <? 0.

(** Rounding to nearest, ties to even, of a rational to binary64: the
    result is a multiple of [2^c], where [c] leaves 53 significant bits and
    is at least -1074; a result of magnitude 2^1024 or more overflows. *)
Definition round_binary64 (q : Q) : float64 :=
  if Qeq_bool q 0 then Finite 0
  else
    let e := floor_log2 (Qabs q) in
    let c := Z.max (e - 52) (-1074) in
    let r := (inject_Z (round_half_even (q / pow2 c)) * pow2 c)%Q in
    if Qle_bool (pow2 1024) (Qabs r) then Infinite (Qsign q)
    else Finite (Qred r).

(** A decimal literal denotes the binary64 number nearest to it. *)
Definition float_literal (q : Q) : float64 := round_binary64 q.

(** The conversion of an [int] operand of a float operation. *)
Definition float_of_int (n : Z) : result float64 :=
  match round_binary64 (inject_Z n) with
  | Infinite _ => Raise OverflowError
  | x => Ok x
  end.

Definition float_mul (x y : float64) : float64 :=
  match x, y with
  | NaN, _ | _, NaN => NaN
  | Finite p, Finite q => round_binary64 (p * q)
  | Infinite s, Finite q | Finite q, Infinite s =>
      if Qnum q =? 0 then NaN else Infinite (xorb s (Qsign q))
  | Infinite s, Infinite t => Infinite (xorb s t)
  end.

(** [n * x] for an [int] [n] and a float [x]. *)
Definition int_times_float (n : Z) (x : float64) : result float64 :=
  (y <- float_of_int n ;; Ok (float_mul y x))%result.

(** [round(x)] with one argument: an [int], ties to even. *)
Definition py_round (x : float64) : result Z :=
  match x with
  | Finite q => Ok (round_half_even q)
  | Infinite _ => Raise OverflowError
  | NaN => Raise (ValueError CannotConvertNaN)
  end.

(** ** [get_expected_counts] *)

Definition BENFORD_PROPS : list float64 :=
  map float_literal
    [301 # 1000; 176 # 1000; 125 # 1000; 97 # 1000; 79 # 1000;
     67 # 1000; 58 # 1000; 51 # 1000; 46 # 1000]%Q.

Definition get_expected_counts (n_observations : Z) : result (list Z) :=
  rmap (fun prop => (x <- int_times_float n_observations prop ;; py_round x)%result)
       BENFORD_PROPS.

(** ** The machine's binary64 numbers, to check the arithmetic above *)

(** The exact value of a primitive float, when it is finite. *)
Definition Q_of_prim (x : PrimFloat.float) : option Q :=
  match FloatOps.Prim2SF x with
  | SpecFloat.S754_zero _ => Some 0%Q
  | SpecFloat.S754_finite s m e =>
      Some (Qred (inject_Z (if s then Zneg m else Zpos m) * pow2 e))
  | _ => None
  end.

Definition agrees (x : float64) (y : PrimFloat.float) : bool :=
  match x, FloatOps.Prim2SF y with
  | Finite q, _ =>
      match Q_of_prim y with
      | Some q' => Qeq_bool q q'
      | None => false
      end
  | Infinite s, SpecFloat.S754_infinity s' => Bool.eqb s s'
  | NaN, SpecFloat.S754_nan => true
  | _, _ => false
  end.

(** The total converted and multiplied by the proportion, both ways. *)
Definition product_agrees (n : Z) (props : float64 * PrimFloat.float) : bool :=
  match int_times_float n (fst props) with
  | Ok x => agrees x (PrimFloat.mul (PrimFloat.of_uint63 (Uint63.of_Z n)) (snd props))
  | Raise _ => false
  end.

(** ** Notions used to state the properties of the numeric functions *)

(** The least rational that no longer rounds to a finite binary64 number:
    halfway between the largest one and 2^1024. *)
Definition overflow_threshold : Z := 2 ^ 1024 - 2 ^ 970.

(** "Rounding half away from zero", for comparison. *)
Definition round_half_away (q : Q) : Z :=
  if Qle_bool 0 q then Qfloor (q + (1 # 2)) else - Qfloor (- q + (1 # 2)).

Definition small_prop (p : float64) : bool :=
  match p with
  | Finite q => Qle_bool 0 q && Qle_bool q (1 # 2)
  | _ => false
  end.

(** The proportions as the decimal fractions written in the source, before
    they are read as binary64 numbers. *)
Definition BENFORD_DECIMALS : list Q :=
  [301 # 1000; 176 # 1000; 125 # 1000; 97 # 1000; 79 # 1000;
   67 # 1000; 58 # 1000; 51 # 1000; 46 # 1000]%Q.

(** What rounding to the nearest integer, ties to even, means, said without
    the algorithm: [c] is at most 1/2 away from [q], and when it is exactly
    1/2 away it is even. *)
Definition nearest_ties_even (c : Z) (q : Q) : Prop :=
  (inject_Z c - (1 # 2) <= q)%Q /\ (q <= inject_Z c + (1 # 2))%Q /\
  ((q == inject_Z c - (1 # 2))%Q \/ (q == inject_Z c + (1 # 2))%Q ->
   Z.even c = true).

(** The count [c] is within 1/2 + 1/64 of the exact product of the total
    and the decimal proportion [d]. *)
Definition near_decimal_product (total : Z) (c : Z) (d : Q) : Prop :=
  (inject_Z total * d - (33 # 64) <= inject_Z c)%Q /\
  (inject_Z c <= inject_Z total * d + (33 # 64))%Q.

(** [sum(counts)], as [main] computes the number of observations. *)
Definition sum (l : list Z) : Z := fold_left Z.add l 0.

(** ** Notions used to state the properties of the counter *)

(** The text whose first character the extraction reads, when there is one. *)
Definition text_of (v : value) : option string :=
  match v with
  | VNum x => Some (str x)
  | VStr s => Some s
  | VOther _ => None
  end.

(** The value is a number or a string whose text starts with one of the
    characters 1 to 9. *)
Definition starts_with_1_to_9 (v : value) : bool :=
  match text_of v with
  | Some (String c _) =>
      let n := Z.of_nat (nat_of_ascii c) in (49 <=? n) && (n <=? 57)
  | _ => false
  end.

(** How many values of the series have first digit [d]. *)
Fixpoint tally (d : Z) (series : list value) : Z :=
  match series with
  | [] => 0
  | v :: rest =>
      (match first_digit v with
       | Ok d' => if d' =? d then 1 else 0
       | Raise _ => 0
       end) + tally d rest
  end.

(** The computation leaves the series object as it found it. *)
Definition keeps_series {A : Type} (m : M A) : Prop :=
  forall h, pandas_series (snd (m h)) = pandas_series h.

(** The table with keys 1 to 9 in insertion order, holding [f k] at [k]. *)
Definition table_of (f : Z -> Z) : dict := map (fun k => (k, f k)) (range 1 10).

Definition bump (f : Z -> Z) (d : Z) : Z -> Z :=
  fun k => if k =? d then f k + 1 else f k.

(** ** Notions used to state further properties of the counter *)

(** The exception a value makes the loop body raise on a table with the
    keys 1 to 9, if any: the one of the extraction, or [KeyError] at the
    increment. *)
Definition count_error (v : value) : option exn :=
  match first_digit v with
  | Raise e => Some e
  | Ok d => if (1 <=? d) && (d <=? 9) then None else Some (KeyError d)
  end.

(** The exception of the first value of the series that raises one. *)
Fixpoint first_error (series : list value) : option exn :=
  match series with
  | [] => None
  | v :: rest =>
      match count_error v with
      | Some e => Some e
      | None => first_error rest
      end
  end.

(** The counts of every digit, in the order of the table. *)
Definition tallies (series : list value) : list Z :=
  map (fun k => tally k series) (range 1 10).

(** Position by position sum of two lists of counts. *)
Definition add_counts (xs ys : list Z) : list Z :=
  map (fun xy => fst xy + snd xy) (combine xs ys).

(** ** [plot_results]: what is handed to the plotting library *)

(** The exceptions of [plot_results], [main] and the batch loop: those of
    the functions above, the division by zero, and any other one, given by
    its message: what [load_data] raises (a file it cannot open or parse, a
    format it does not know) and what the statistics library raises. *)
Inductive exception : Type :=
| Exn (e : exn)
| ZeroDivisionError
| OtherError (msg : string).

Inductive res (A : Type) : Type :=
| Done (a : A)
| Fail (e : exception).

Arguments Done {A} a.
Arguments Fail {A} e.

Definition res_bind {A B : Type} (r : res A) (k : A -> res B) : res B :=
  match r with
  | Done a => k a
  | Fail e => Fail e
  end.

Definition of_result {A : Type} (r : result A) : res A :=
  match r with
  | Ok a => Done a
  | Raise e => Fail (Exn e)
  end.

Declare Scope res_scope.
Delimit Scope res_scope with res.
Notation "x <- r ;; k" := (res_bind r (fun x => k))
  (at level 61, r at next level, right associativity) : res_scope.
Notation "' pat <- r ;; k" := (res_bind r (fun x => match x with pat => k end))
  (at level 61, pat pattern, r at next level, right associativity) : res_scope.

Fixpoint res_map {A B : Type} (f : A -> res B) (xs : list A) : res (list B) :=
  match xs with
  | [] => Done []
  | x :: xs' => (y <- f x ;; ys <- res_map f xs' ;; Done (y :: ys))%res
  end.

(** [x / y] on floats: a zero divisor raises, every other case is the
    binary64 quotient. *)
Definition float_div (x y : float64) : res float64 :=
  match y with
  | Finite q =>
      if Qeq_bool q 0 then Fail ZeroDivisionError
      else Done (match x with
                 | Finite p => round_binary64 (p / q)
                 | Infinite s => Infinite (xorb s (Qsign q))
                 | NaN => NaN
                 end)
  | Infinite _ =>
      Done (match x with
            | Finite _ => Finite 0
            | _ => NaN
            end)
  | NaN => Done NaN
  end.

(** [n / y] for an [int] [n] and a float [y]. *)
Definition int_over_float (n : Z) (y : float64) : res float64 :=
  (x <- of_result (float_of_int n) ;; float_div x y)%res.

(** Lines 84 to 89 of [plot_results]: the tick positions and the heights of
    the bars.  The drawing itself is the plotting library's. *)
Definition plot_results (actuals : list Z) : res (list Z * list float64) :=
  (sum_actuals <- of_result (float_of_int (sum actuals)) ;;
   proportions <- res_map (fun actual => int_over_float actual sum_actuals) actuals ;;
   let index := map (fun i => i + 1) (range 0 (Z.of_nat (List.length proportions))) in
   Done (index, proportions))%res.

(** A proportion: a finite float between 0 and 1. *)
Definition is_proportion (x : float64) : Prop :=
  exists q, x = Finite q /\ (0 <= q)%Q /\ (q <= 1)%Q.

(** The exact values of the nine binary64 proportions. *)
Definition proportion_values : list Q :=
  [5422333951354077 # 18014398509481984;
   3170534137668829 # 18014398509481984;
   1 # 8;
   3494793310839505 # 36028797018963968;
   5692549928996307 # 72057594037927936;
   1206964700135293 # 18014398509481984;
   8358680908399641 # 144115188075855872;
   7349874591868649 # 144115188075855872;
   3314649325744685 # 72057594037927936]%Q.

(** The count [c] is within 1/2 + 1/128 of the product of the total and the
    proportion [p]. *)
Definition near_product (total : Z) (c : Z) (p : Q) : Prop :=
  (inject_Z total * p - (65 # 128) <= inject_Z c)%Q /\
  (inject_Z c <= inject_Z total * p + (65 # 128))%Q.

(** ** [main] and the batch loop *)

(** What a run writes or shows, in order. *)
Inductive event : Type :=
| Testing (data_file : string)                        (* print, line 126 *)
| TestPrinted (chi2 : float64) (p : float64)          (* print, line 118 *)
| Plotted (index : list Z) (proportions : list float64)
| ErrorPrinted (e : exception).                       (* print, line 131 *)

(** A computation that writes events and may raise; what was written
    before an exception stays written. *)
Definition W (A : Type) : Type := (list event * res A)%type.

Definition w_bind {A B : Type} (m : W A) (k : A -> W B) : W B :=
  match m with
  | (out, Done a) => let '(out', r) := k a in (out ++ out', r)
  | (out, Fail e) => (out, Fail e)
  end.

Definition w_lift {A : Type} (r : res A) : W A := ([], r).

Definition emit (ev : event) : W unit := ([ev], Done tt).

Declare Scope w_scope.
Delimit Scope w_scope with w.
Notation "x <- m ;; k" := (w_bind m (fun x => k))
  (at level 61, m at next level, right associativity) : w_scope.
Notation "' pat <- m ;; k" := (w_bind m (fun x => match x with pat => k end))
  (at level 61, pat pattern, m at next level, right associativity) : w_scope.
Notation "m ;; k" := (w_bind m (fun _ => k))
  (at level 61, right associativity) : w_scope.

Local Open Scope string_scope.

Definition data_dir : string := ".\data".

Local Close Scope string_scope.

Section Program.

(** Reading a file into the values of its first column is the work of
    pandas and of the file system; so are the names found in the data
    directory and their joining to it.  The test itself is the work of
    [scipy.stats.chisquare], which is not part of the program: it is a
    parameter too, a function from two lists of counts to a statistic and a
    probability or an exception, of which nothing is assumed. *)
Variable load_data : string -> res (list value).
Variable chisquare : list Z -> list Z -> res (float64 * float64).
Variable path_join : string -> string -> string.

Definition chi_squared_test (actual expected : list Z) : res (float64 * float64) :=
  ('(chi2_stat, p) <- chisquare actual expected ;; Done (chi2_stat, p))%res.

Definition main (data_file : string) : W unit :=
  (series <- w_lift (load_data data_file) ;;
   actuals <- w_lift (of_result (FrequencyCounter series)) ;;
   expected <- w_lift (of_result (get_expected_counts (sum actuals))) ;;
   '(chi2, p) <- w_lift (chi_squared_test actuals expected) ;;
   emit (TestPrinted chi2 p) ;;
   '(index, proportions) <- w_lift (plot_results actuals) ;;
   emit (Plotted index proportions))%w.

(** The loop of the script over the names found in the directory. *)
Fixpoint batch (files : list string) : list event :=
  match files with
  | [] => []
  | data_file :: rest =>
      let '(out, r) := main (path_join data_dir data_file) in
      Testing data_file :: out
        ++ match r with
           | Done _ => []
           | Fail e => [ErrorPrinted e]
           end
        ++ batch rest
  end.

End Program.

(* ================================================================== *)
(** * Part II: properties *)
(* ================================================================== *)

Local Open Scope string_scope.

(** ** Sanity checks of the run-time model *)

Example str_float_forms :
  map str_float
    [FDec false "456" (-1); FDec false "1" (-4); FDec false "15" (-4);
     FDec false "1" 17; FDec false "1" 16; FDec true "0" 1;
     FDec false "123456" 3; FDec true "55" 2]
  = ["0.0456"; "1e-05"; "1.5e-05"; "1e+16"; "1000000000000000.0"; "-0.0";
     "123.456"; "-55.0"].
Proof. reflexivity. Qed.

#[local] Set Warnings "-inexact-float".

Example BENFORD_PROPS_are_the_literals :
  forallb (fun props => agrees (fst props) (snd props))
    (combine BENFORD_PROPS
       [0.301; 0.176; 0.125; 0.097; 0.079; 0.067; 0.058; 0.051; 0.046]%float)
  = true.
Proof. vm_compute. reflexivity. Qed.

Example products_are_the_machine_products :
  forallb (fun n =>
      forallb (product_agrees n)
        (combine BENFORD_PROPS
           [0.301; 0.176; 0.125; 0.097; 0.079; 0.067; 0.058; 0.051; 0.046]%float))
    [0; 1; 4; 10; 12; 20; 500; 1000; 2500; 12345; 999999; 123456789012;
     4503599627370497; 9007199254740993; 2 ^ 62 + 12345]
  = true.
Proof. vm_compute. reflexivity. Qed.

Example rounding_at_the_edges :
  agrees (float_mul (float_literal (10 ^ 300)) (float_literal (10 ^ 10)))
         (1e300 * 1e10)%float = true /\
  agrees (float_mul (float_literal (1 # 10 ^ 300)) (float_literal (1 # 10 ^ 20)))
         (1e-300 * 1e-20)%float = true /\
  agrees (float_mul (float_literal (1 # 10 ^ 300)) (float_literal (1 # 10 ^ 30)))
         (1e-300 * 1e-30)%float = true /\
  agrees (float_mul (float_literal (10 ^ 300)) (float_literal (17976931348 # 100)))
         (1e300 * 179769313.48)%float = true /\
  agrees (float_mul (float_literal (10 ^ 300)) (float_literal (17976931349 # 100)))
         (1e300 * 179769313.49)%float = true.
Proof. vm_compute. repeat split. Qed.

Example str_int_forms : map str_int [123; 0; -55] = ["123"; "0"; "-55"].
Proof. reflexivity. Qed.

Example count_three :
  FrequencyCounter [VNum (PyInt 123); VStr "789"; VNum (PyFloat (FDec false "15" 1))]
  = Ok [2; 0; 0; 0; 0; 0; 1; 0; 0].
Proof. reflexivity. Qed.

Local Close Scope string_scope.

(** ** The loop of [count_first_digits] *)

(** Case analysis on a digit known to lie between 1 and 9. *)
Ltac each_digit d :=
  let Hcases := fresh "Hcases" in
  assert (Hcases : d = 1 \/ d = 2 \/ d = 3 \/ d = 4 \/ d = 5 \/ d = 6 \/
                   d = 7 \/ d = 8 \/ d = 9) by lia;
  repeat (destruct Hcases as [-> | Hcases]); try subst d.

Lemma range_1_10 : range 1 10 = [1; 2; 3; 4; 5; 6; 7; 8; 9].
Proof. reflexivity. Qed.

Lemma table_of_keys (f : Z -> Z) : map fst (table_of f) = range 1 10.
Proof. reflexivity. Qed.

Lemma table_of_ext (f g : Z -> Z) :
  (forall k, 1 <= k <= 9 -> f k = g k) -> table_of f = table_of g.
Proof.
  intros H. unfold table_of. rewrite range_1_10. simpl.
  repeat rewrite (H _) by lia. reflexivity.
Qed.

Lemma dict_incr_present (f : Z -> Z) (d : Z) :
  1 <= d <= 9 -> dict_incr (table_of f) d = Ok (table_of (bump f d)).
Proof.
  intros Hd.
  each_digit d; reflexivity.
Qed.

Lemma dict_get_absent (d : dict) (k : Z) :
  ~ In k (map fst d) -> dict_get d k = Raise (KeyError k).
Proof.
  induction d as [| [k' v] d IH]; intros Hk; cbn [dict_get]; [reflexivity |].
  destruct (Z.eqb_spec k' k) as [-> | _].
  - exfalso. apply Hk. left. reflexivity.
  - apply IH. intros Hin. apply Hk. right. exact Hin.
Qed.

Lemma dict_incr_absent (f : Z -> Z) (d : Z) :
  ~ 1 <= d <= 9 -> dict_incr (table_of f) d = Raise (KeyError d).
Proof.
  intros Hd. unfold dict_incr. rewrite dict_get_absent; [reflexivity |].
  rewrite table_of_keys, range_1_10. cbn [In]. lia.
Qed.

Lemma sorted_table_of (f : Z -> Z) : sorted (table_of f) = table_of f.
Proof. reflexivity. Qed.

(** One turn of the loop on a table with the nine keys. *)
Lemma count_one_ok (v : value) (d : Z) (f : Z -> Z) (s : list value) :
  first_digit v = Ok d -> 1 <= d <= 9 ->
  count_one v (Heap s (table_of f)) = (Ok tt, Heap s (table_of (bump f d))).
Proof.
  intros Hv Hd. unfold count_one, bind, lift, read_table, write_table. simpl.
  rewrite Hv. simpl. rewrite dict_incr_present by assumption. reflexivity.
Qed.

Lemma count_one_key_error (v : value) (d : Z) (f : Z -> Z) (s : list value) :
  first_digit v = Ok d -> ~ 1 <= d <= 9 ->
  count_one v (Heap s (table_of f)) = (Raise (KeyError d), Heap s (table_of f)).
Proof.
  intros Hv Hd. unfold count_one, bind, lift, read_table, write_table. simpl.
  rewrite Hv. simpl. rewrite dict_incr_absent by assumption. reflexivity.
Qed.

Lemma count_one_raise (v : value) (e : exn) (h : heap) :
  first_digit v = Raise e -> count_one v h = (Raise e, h).
Proof.
  intros Hv. unfold count_one, bind, lift. rewrite Hv. reflexivity.
Qed.

Lemma int_of_char_1_to_9 (c : ascii) :
  (let n := Z.of_nat (nat_of_ascii c) in (49 <=? n) && (n <=? 57)) = true
  <-> exists d, int_of_char c = Ok d /\ 1 <= d <= 9.
Proof.
  unfold int_of_char, is_decimal_digit. cbv zeta.
  set (n := Z.of_nat (nat_of_ascii c)).
  rewrite andb_true_iff, !Z.leb_le.
  destruct (Z.leb_spec 48 n), (Z.leb_spec n 57); cbn [andb]; split.
  all: try (intros [? ?]; lia).
  all: try (intros [d [[=] ?]]; lia).
  intros [? ?]. exists (n - 48). split; [reflexivity | lia].
Qed.

Lemma first_digit_text (v : value) :
  first_digit v =
  match v with
  | VOther ty => Raise (ValueError (WrongDataFormat ty))
  | _ => match text_of v with
         | Some (String c _) => int_of_char c
         | _ => Raise IndexError
         end
  end.
Proof.
  destruct v as [x | s | ty]; cbn [first_digit text_of];
    [destruct (str x) | destruct s |]; reflexivity.
Qed.

Lemma starts_with_1_to_9_digit (v : value) :
  starts_with_1_to_9 v = true <-> exists d, first_digit v = Ok d /\ 1 <= d <= 9.
Proof.
  rewrite first_digit_text. unfold starts_with_1_to_9.
  destruct v as [x | s | ty]; cbn [text_of].
  - destruct (str x) as [| c rest]; [| apply int_of_char_1_to_9].
    split; [discriminate | intros [d [[=] _]]].
  - destruct s as [| c rest]; [| apply int_of_char_1_to_9].
    split; [discriminate | intros [d [[=] _]]].
  - split; [discriminate | intros [d [[=] _]]].
Qed.

Lemma for_each_app {A : Type} (xs ys : list A) (body : A -> M unit) (h : heap) :
  for_each (xs ++ ys) body h =
  match for_each xs body h with
  | (Ok _, h') => for_each ys body h'
  | (Raise e, h') => (Raise e, h')
  end.
Proof.
  revert h. induction xs as [| x xs IH]; intros h; simpl.
  - reflexivity.
  - unfold bind. destruct (body x h) as [[[] | e] h']; [apply IH | reflexivity].
Qed.

(** The loop over values that all start with 1 to 9 adds their tallies. *)
Lemma loop_tallies (series : list value) :
  Forall (fun v => starts_with_1_to_9 v = true) series ->
  forall (f : Z -> Z) (s : list value),
    for_each series count_one (Heap s (table_of f))
    = (Ok tt, Heap s (table_of (fun k => f k + tally k series))).
Proof.
  induction 1 as [| v rest Hv _ IH]; intros f s; simpl.
  - unfold ret. f_equal. f_equal. apply table_of_ext. intros; lia.
  - apply starts_with_1_to_9_digit in Hv. destruct Hv as [d [Hv Hd]].
    unfold bind. rewrite (count_one_ok v d f s Hv Hd). rewrite IH.
    f_equal. f_equal. apply table_of_ext. intros k _. unfold bump. rewrite Hv.
    rewrite (Z.eqb_sym d k). destruct (k =? d); lia.
Qed.

Lemma tally_nonneg (d : Z) (series : list value) : 0 <= tally d series.
Proof.
  induction series as [| v rest IH]; simpl; [lia |].
  destruct (first_digit v) as [d' | e]; [destruct (d' =? d) |]; lia.
Qed.

Lemma fold_left_add_shift (l : list Z) (a : Z) :
  fold_left Z.add l a = a + fold_left Z.add l 0.
Proof.
  revert a. induction l as [| y l IH]; intros a; cbn [fold_left]; [lia |].
  rewrite (IH (a + y)), (IH (0 + y)). lia.
Qed.

Lemma sum_cons (x : Z) (l : list Z) : sum (x :: l) = x + sum l.
Proof. unfold sum. cbn [fold_left]. rewrite fold_left_add_shift. lia. Qed.

Lemma tally_total (series : list value) :
  Forall (fun v => starts_with_1_to_9 v = true) series ->
  sum (map (fun k => tally k series) (range 1 10)) = Z.of_nat (List.length series).
Proof.
  rewrite range_1_10.
  induction 1 as [| v rest Hv _ IH]; [reflexivity |].
  apply starts_with_1_to_9_digit in Hv. destruct Hv as [d [Hv Hd]].
  cbn [map] in *. repeat rewrite sum_cons in *. cbn [tally List.length].
  rewrite Hv. rewrite Nat2Z.inj_succ.
  each_digit d; cbn [Z.eqb Pos.eqb]; lia.
Qed.

(** The outcome on a series whose values all start with 1 to 9. *)
Lemma FrequencyCounter_tallies (series : list value) :
  Forall (fun v => starts_with_1_to_9 v = true) series ->
  call_count_first_digits series
  = (Ok (map (fun k => tally k series) (range 1 10)),
     Heap series (table_of (fun k => tally k series))).
Proof.
  intros H. unfold call_count_first_digits, count_first_digits.
  unfold bind at 1. unfold write_table at 1. cbn [pandas_series].
  change (map (fun i => (i, 0)) (range 1 10)) with (table_of (fun _ => 0)).
  unfold bind at 1. unfold read_series at 1. cbn [pandas_series].
  unfold bind at 1. rewrite (loop_tallies series H).
  unfold bind, read_table, ret. cbn [first_digits].
  rewrite sorted_table_of. unfold table_of. rewrite map_map. reflexivity.
Qed.

Lemma FrequencyCounter_fails_at (pre post : list value) (v : value) (e : exn) :
  Forall (fun u => starts_with_1_to_9 u = true) pre ->
  (first_digit v = Raise e \/
   exists d, first_digit v = Ok d /\ ~ 1 <= d <= 9 /\ e = KeyError d) ->
  call_count_first_digits (pre ++ v :: post)
  = (Raise e, Heap (pre ++ v :: post) (table_of (fun k => tally k pre))).
Proof.
  intros Hpre Hv. unfold call_count_first_digits, count_first_digits.
  unfold bind at 1. unfold write_table at 1. cbn [pandas_series].
  change (map (fun i => (i, 0)) (range 1 10)) with (table_of (fun _ => 0)).
  unfold bind at 1. unfold read_series at 1. cbn [pandas_series].
  unfold bind at 1. rewrite for_each_app, (loop_tallies pre Hpre).
  cbn [for_each]. unfold bind at 1.
  replace (table_of (fun k => 0 + tally k pre))
    with (table_of (fun k => tally k pre)) by (apply table_of_ext; intros; lia).
  destruct Hv as [Hv | [d [Hv [Hd ->]]]].
  - rewrite (count_one_raise v e _ Hv). reflexivity.
  - rewrite (count_one_key_error v d _ _ Hv Hd). reflexivity.
Qed.

Lemma keeps_series_bind {A B : Type} (m : M A) (k : A -> M B) :
  keeps_series m -> (forall a, keeps_series (k a)) -> keeps_series (bind m k).
Proof.
  intros Hm Hk h. unfold bind. specialize (Hm h).
  destruct (m h) as [[a | e] h']; cbn [snd] in *.
  - rewrite Hk. exact Hm.
  - exact Hm.
Qed.

Lemma keeps_series_for_each {A : Type} (xs : list A) (body : A -> M unit) :
  (forall x, keeps_series (body x)) -> keeps_series (for_each xs body).
Proof.
  intros Hbody. induction xs as [| x xs IH]; cbn [for_each].
  - intros h. reflexivity.
  - apply keeps_series_bind; [apply Hbody | intros _; exact IH].
Qed.

Lemma keeps_series_count_one (v : value) : keeps_series (count_one v).
Proof.
  unfold count_one.
  repeat (apply keeps_series_bind; [intros h; reflexivity | intros ?]).
  intros h. reflexivity.
Qed.

(** ** The first character of a number's text *)

Lemma unorm_leading_zero (u u' : Decimal.uint) :
  Decimal.unorm u = Decimal.D0 u' -> u' = Decimal.Nil.
Proof.
  induction u; cbn; intros H; try discriminate H.
  - injection H as <-. reflexivity.
  - apply IHu. exact H.
Qed.

Lemma to_uint_normal (p : positive) : Decimal.unorm (Pos.to_uint p) = Pos.to_uint p.
Proof.
  rewrite <- (DecimalPos.Unsigned.to_of (Pos.to_uint p)).
  rewrite DecimalPos.Unsigned.of_to. reflexivity.
Qed.

(** The text of a positive [int] starts with its leading digit, never 0. *)
Lemma positive_int_starts_with_1_to_9 (n : Z) :
  0 < n -> starts_with_1_to_9 (VNum (PyInt n)) = true.
Proof.
  destruct n as [| p | p]; try lia. intros _.
  unfold starts_with_1_to_9, text_of, str, str_int.
  cbn [Z.to_int NilZero.string_of_int].
  pose proof (to_uint_normal p) as Hnorm.
  pose proof (DecimalPos.Unsigned.to_uint_nonnil p) as Hnil.
  destruct (Pos.to_uint p) as [| u | u | u | u | u | u | u | u | u | u] eqn:E;
    try reflexivity.
  - contradiction Hnil. reflexivity.
  - exfalso. pose proof (unorm_leading_zero _ _ Hnorm) as ->.
    apply (DecimalPos.Unsigned.to_uint_nonzero p). exact E.
Qed.

Local Open Scope string_scope.

(** The text of a negative [int] starts with the sign, which [int] refuses. *)
Lemma negative_int_raises (n : Z) :
  n < 0 -> first_digit (VNum (PyInt n)) = Raise (ValueError (InvalidLiteral "-")).
Proof.
  destruct n as [| p | p]; try lia. intros _. reflexivity.
Qed.

Lemma negative_float_raises (digits : string) (decpt : Z) :
  first_digit (VNum (PyFloat (FDec true digits decpt)))
  = Raise (ValueError (InvalidLiteral "-")).
Proof. reflexivity. Qed.

(** A nonnegative float below 1 that prints in fixed form starts with 0. *)
Lemma float_below_one_gives_zero (digits : string) (decpt : Z) :
  -4 < decpt <= 0 ->
  first_digit (VNum (PyFloat (FDec false digits decpt))) = Ok 0.
Proof.
  intros [H1 H2]. cbn [first_digit str str_float sign_text].
  destruct (Z.leb_spec decpt (-4)); [lia |].
  destruct (Z.ltb_spec 16 decpt); [lia |].
  destruct (Z.leb_spec decpt 0); [| lia].
  reflexivity.
Qed.

Local Close Scope string_scope.

(* ------------------------------------------------------------------ *)
(** ** The claims about [count_first_digits] *)

Local Open Scope string_scope.

(** C1 (the code departs from the claim).  The extraction takes the literal
    first character: 123 gives 1 and "789" gives 7 as claimed, but 0.0456
    gives 0 where the claim says 4, so that the counter raises [KeyError],
    and -55 raises [ValueError] on the sign where the claim says 5.  The
    same holds of every negative number and of every float below 1 printed
    in fixed form. *)
Theorem C1_first_digit_takes_literal_first_character :
  first_digit (VNum (PyInt 123)) = Ok 1 /\
  first_digit (VStr "789") = Ok 7 /\
  first_digit (VNum (PyFloat (FDec false "456" (-1)))) = Ok 0 /\
  first_digit (VNum (PyInt (-55))) = Raise (ValueError (InvalidLiteral "-")) /\
  FrequencyCounter [VNum (PyFloat (FDec false "456" (-1)))] = Raise (KeyError 0) /\
  FrequencyCounter [VNum (PyInt (-55))] = Raise (ValueError (InvalidLiteral "-")) /\
  (forall n, n < 0 ->
     first_digit (VNum (PyInt n)) = Raise (ValueError (InvalidLiteral "-"))) /\
  (forall digits decpt, -4 < decpt <= 0 ->
     first_digit (VNum (PyFloat (FDec false digits decpt))) = Ok 0).
Proof.
  do 6 (split; [reflexivity |]). split.
  - exact negative_int_raises.
  - exact float_below_one_gives_zero.
Qed.

(** C3 as stated fails: a series holding [None] yields no counts at all. *)
Lemma C3_counterexample :
  ~ (forall series : list value,
       exists counts : list Z,
         FrequencyCounter series = Ok counts /\
         List.length counts = 9%nat /\
         Forall (fun c => 0 <= c) counts /\
         sum counts = Z.of_nat (List.length series)).
Proof.
  intros H. destruct (H [VOther "<class 'NoneType'>"]) as [counts [Hc _]].
  discriminate Hc.
Qed.

(** C3 (amended).  For every series whose values are numbers or strings
    starting with one of the characters 1 to 9, the counter returns nine
    nonnegative counts, the count of digit [d] at position [d - 1], and
    their sum is the number of values. *)
Theorem C3_counts_of_a_valid_series (series : list value) :
  Forall (fun v => starts_with_1_to_9 v = true) series ->
  exists counts : list Z,
    FrequencyCounter series = Ok counts /\
    List.length counts = 9%nat /\
    Forall (fun c => 0 <= c) counts /\
    (forall d, 1 <= d <= 9 -> nth (Z.to_nat (d - 1)) counts 0 = tally d series) /\
    sum counts = Z.of_nat (List.length series).
Proof.
  intros H. exists (map (fun k => tally k series) (range 1 10)).
  split; [| split; [| split; [| split]]].
  - unfold FrequencyCounter. rewrite (FrequencyCounter_tallies series H). reflexivity.
  - reflexivity.
  - apply Forall_forall. intros c Hc. apply in_map_iff in Hc.
    destruct Hc as [k [<- _]]. apply tally_nonneg.
  - intros d Hd. rewrite range_1_10.
    each_digit d; reflexivity.
  - apply tally_total. exact H.
Qed.

Lemma C3_witness :
  exists counts : list Z,
    FrequencyCounter [VNum (PyInt 123); VStr "789"; VNum (PyFloat (FDec false "15" 1))]
    = Ok counts /\
    List.length counts = 9%nat /\
    Forall (fun c => 0 <= c) counts /\
    (forall d, 1 <= d <= 9 ->
       nth (Z.to_nat (d - 1)) counts 0
       = tally d [VNum (PyInt 123); VStr "789"; VNum (PyFloat (FDec false "15" 1))]) /\
    sum counts = 3.
Proof.
  apply (C3_counts_of_a_valid_series
           [VNum (PyInt 123); VStr "789"; VNum (PyFloat (FDec false "15" 1))]).
  repeat constructor.
Defined.

(** C7 as stated fails: when an earlier value already makes the counter
    fail, the error is that value's; here the empty string raises
    [IndexError] before [None] is reached. *)
Lemma C7_counterexample :
  ~ (forall (pre post : list value) (ty : string),
       Forall (fun u => match u with VOther _ => False | _ => True end) pre ->
       FrequencyCounter (pre ++ VOther ty :: post)
       = Raise (ValueError (WrongDataFormat ty))).
Proof.
  intros H.
  specialize (H [VStr ""] [] "<class 'NoneType'>" ltac:(repeat constructor)).
  discriminate H.
Qed.

(** C7 (amended).  When the values before the first one that is neither a
    number nor a string all start with one of the characters 1 to 9, the
    counter fails with the wrong-data-format [ValueError] that the
    extraction raises for it, and returns no counts. *)
Theorem C7_wrong_format_propagates (pre post : list value) (ty : string) :
  Forall (fun u => starts_with_1_to_9 u = true) pre ->
  first_digit (VOther ty) = Raise (ValueError (WrongDataFormat ty)) /\
  FrequencyCounter (pre ++ VOther ty :: post) = Raise (ValueError (WrongDataFormat ty)) /\
  (forall counts, FrequencyCounter (pre ++ VOther ty :: post) <> Ok counts).
Proof.
  intros Hpre.
  assert (Hrun : FrequencyCounter (pre ++ VOther ty :: post)
                 = Raise (ValueError (WrongDataFormat ty))).
  { unfold FrequencyCounter.
    rewrite (FrequencyCounter_fails_at pre post (VOther ty)
               (ValueError (WrongDataFormat ty)) Hpre); [reflexivity |].
    left. reflexivity. }
  split; [reflexivity | split; [exact Hrun |]].
  intros counts Hc. rewrite Hrun in Hc. discriminate Hc.
Qed.

Lemma C7_witness :
  first_digit (VOther "<class 'list'>")
  = Raise (ValueError (WrongDataFormat "<class 'list'>")) /\
  FrequencyCounter ([VNum (PyInt 12); VStr "3.5"] ++ VOther "<class 'list'>" :: [VStr ""])
  = Raise (ValueError (WrongDataFormat "<class 'list'>")) /\
  (forall counts,
     FrequencyCounter ([VNum (PyInt 12); VStr "3.5"] ++ VOther "<class 'list'>" :: [VStr ""])
     <> Ok counts).
Proof.
  apply (C7_wrong_format_propagates [VNum (PyInt 12); VStr "3.5"] [VStr ""] "<class 'list'>").
  repeat constructor.
Defined.

(** C8.  A number whose text starts with the character 0 makes the counter
    raise [KeyError] at the increment, whatever follows it, once the values
    before it have been counted: the table holds the keys 1 to 9 only.  The
    error is not the wrong-data-format error. *)
Theorem C8_leading_zero_raises_KeyError
    (pre post : list value) (x : number) (rest : string) :
  str x = String "0" rest ->
  Forall (fun u => starts_with_1_to_9 u = true) pre ->
  FrequencyCounter (pre ++ VNum x :: post) = Raise (KeyError 0) /\
  map fst (first_digits (snd (call_count_first_digits (pre ++ VNum x :: post))))
  = [1; 2; 3; 4; 5; 6; 7; 8; 9] /\
  (forall ty, KeyError 0 <> ValueError (WrongDataFormat ty)).
Proof.
  intros Hx Hpre.
  assert (Hrun : call_count_first_digits (pre ++ VNum x :: post)
                 = (Raise (KeyError 0),
                    Heap (pre ++ VNum x :: post) (table_of (fun k => tally k pre)))).
  { apply FrequencyCounter_fails_at; [exact Hpre |].
    right. exists 0. cbn [first_digit]. rewrite Hx. repeat split. lia. }
  unfold FrequencyCounter. rewrite Hrun.
  split; [reflexivity | split; [reflexivity | discriminate]].
Qed.

Lemma C8_witness :
  FrequencyCounter ([VStr "25"] ++ VNum (PyFloat (FDec false "456" (-1))) :: [VNum (PyInt 7)])
  = Raise (KeyError 0) /\
  map fst (first_digits (snd (call_count_first_digits
     ([VStr "25"] ++ VNum (PyFloat (FDec false "456" (-1))) :: [VNum (PyInt 7)]))))
  = [1; 2; 3; 4; 5; 6; 7; 8; 9] /\
  (forall ty, KeyError 0 <> ValueError (WrongDataFormat ty)).
Proof.
  apply (C8_leading_zero_raises_KeyError
           [VStr "25"] [VNum (PyInt 7)] (PyFloat (FDec false "456" (-1))) ".0456").
  - reflexivity.
  - repeat constructor.
Defined.

(** C9.  Whatever the outcome, counts or an exception, the call leaves the
    series it was given as it found it. *)
Theorem C9_series_unchanged (series : list value) :
  pandas_series (snd (call_count_first_digits series)) = series.
Proof.
  unfold call_count_first_digits.
  assert (H : keeps_series count_first_digits).
  { unfold count_first_digits.
    apply keeps_series_bind; [intros h; reflexivity | intros _].
    apply keeps_series_bind; [intros h; reflexivity | intros values].
    apply keeps_series_bind;
      [apply keeps_series_for_each, keeps_series_count_one | intros _].
    apply keeps_series_bind; [intros h; reflexivity | intros t].
    intros h. reflexivity. }
  apply (H (Heap series [])).
Qed.

Local Close Scope string_scope.

(* ------------------------------------------------------------------ *)
(** ** Rounding *)

Lemma round_half_even_cases (q : Q) :
  let f := Qnum q / Zpos (Qden q) in
  round_half_even q = f \/ round_half_even q = f + 1.
Proof.
  unfold round_half_even. cbv zeta.
  destruct (_ <? _); [left; reflexivity |].
  destruct (_ <? _); [right; reflexivity |].
  destruct (Z.even _); [left | right]; reflexivity.
Qed.

Lemma round_half_even_le (q : Q) (K : Z) :
  (q < inject_Z K)%Q -> round_half_even q <= K.
Proof.
  unfold Qlt. cbn [Qnum Qden inject_Z]. intros H.
  assert (Hf : Qnum q / Zpos (Qden q) < K).
  { apply Z.div_lt_upper_bound; lia. }
  destruct (round_half_even_cases q) as [-> | ->]; lia.
Qed.

Lemma round_half_even_nonneg (q : Q) :
  (0 <= q)%Q -> 0 <= round_half_even q.
Proof.
  unfold Qle. cbn [Qnum Qden]. intros H.
  assert (Hf : 0 <= Qnum q / Zpos (Qden q)).
  { apply Z.div_pos; lia. }
  destruct (round_half_even_cases q) as [-> | ->]; lia.
Qed.

Lemma round_half_even_below_half (q : Q) (K : Z) :
  (q < inject_Z K - (1 # 2))%Q -> round_half_even q <= K - 1.
Proof.
  unfold Qlt, Qminus, Qplus, Qopp. cbn [Qnum Qden inject_Z]. intros H.
  unfold round_half_even. cbv zeta.
  pose proof (Z.div_mod (Qnum q) (Zpos (Qden q)) ltac:(lia)) as Hdm.
  pose proof (Z.mod_pos_bound (Qnum q) (Zpos (Qden q)) ltac:(lia)) as Hr.
  set (f := Qnum q / Zpos (Qden q)) in *.
  set (r := Qnum q mod Zpos (Qden q)) in *.
  set (d := Zpos (Qden q)) in *.
  assert (Hd : 0 < d) by (subst d; lia).
  assert (Hf : f <= K - 1) by nia.
  destruct (Z.ltb_spec (2 * r) d); [lia |].
  assert (f <= K - 2) by nia.
  destruct (d <? 2 * r); [lia |]. destruct (Z.even f); lia.
Qed.

Lemma round_half_even_tie (q : Q) (k : Z) :
  (q == inject_Z k + (1 # 2))%Q ->
  round_half_even q = if Z.even k then k else k + 1.
Proof.
  unfold Qeq, Qplus. cbn [Qnum Qden inject_Z]. intros H.
  unfold round_half_even. cbv zeta.
  pose proof (Z.div_mod (Qnum q) (Zpos (Qden q)) ltac:(lia)) as Hdm.
  pose proof (Z.mod_pos_bound (Qnum q) (Zpos (Qden q)) ltac:(lia)) as Hr.
  set (f := Qnum q / Zpos (Qden q)) in *.
  set (r := Qnum q mod Zpos (Qden q)) in *.
  set (d := Zpos (Qden q)) in *.
  assert (Hd : 0 < d) by (subst d; lia).
  assert (Hf : f = k) by nia.
  subst f. rewrite Hf in *.
  assert (Hr2 : 2 * r = d) by nia.
  destruct (Z.ltb_spec (2 * r) d); [lia |].
  destruct (Z.ltb_spec d (2 * r)); [lia |]. reflexivity.
Qed.

(** ** Powers of two and binary64 rounding *)

Lemma pow2_pos (k : Z) : (0 < pow2 k)%Q.
Proof. unfold pow2. apply Qpower_0_lt. reflexivity. Qed.

Lemma pow2_add (j k : Z) : (pow2 (j + k) == pow2 j * pow2 k)%Q.
Proof. unfold pow2. apply Qpower_plus. discriminate. Qed.

Lemma pow2_le_mono (j k : Z) : j <= k -> (pow2 j <= pow2 k)%Q.
Proof.
  intros H. unfold pow2. apply Qpower_le_compat_l; [exact H | discriminate].
Qed.

Lemma pow2_lt_inv (j k : Z) : (pow2 j < pow2 k)%Q -> j < k.
Proof.
  intros H.
  destruct (Z.lt_ge_cases j k) as [Hlt | Hge]; [exact Hlt | exfalso].
  apply (Qlt_not_le _ _ H). apply pow2_le_mono. exact Hge.
Qed.

Lemma pow2_inject (k : Z) : 0 <= k -> (inject_Z (2 ^ k) == pow2 k)%Q.
Proof. intros H. unfold pow2. apply (Zpower_Qpower 2 k H). Qed.

(** Dividing by a power of two. *)
Lemma div_pow2 (q : Q) (k : Z) : (q / pow2 k == q * pow2 (- k))%Q.
Proof.
  unfold Qdiv. apply Qmult_comp; [reflexivity |].
  unfold pow2. symmetry. apply Qpower_opp.
Qed.

Lemma Q_as_ratio (q : Q) : (q * inject_Z (Zpos (Qden q)) == inject_Z (Qnum q))%Q.
Proof. unfold Qeq, Qmult. cbn [Qnum Qden inject_Z]. lia. Qed.

Lemma floor_log2_spec (q : Q) :
  (0 < q)%Q ->
  (pow2 (floor_log2 q) <= q)%Q /\ (q < pow2 (floor_log2 q + 1))%Q.
Proof.
  intros Hq.
  assert (Ha : 0 < Qnum q).
  { unfold Qlt in Hq. cbn [Qnum Qden] in Hq. lia. }
  set (la := Z.log2 (Qnum q)). set (lb := Z.log2 (Zpos (Qden q))).
  destruct (Z.log2_spec (Qnum q) Ha) as [Ha1 Ha2].
  destruct (Z.log2_spec (Zpos (Qden q)) ltac:(lia)) as [Hb1 Hb2].
  fold la in Ha1, Ha2. fold lb in Hb1, Hb2.
  assert (Hla : 0 <= la) by apply Z.log2_nonneg.
  assert (Hlb : 0 <= lb) by apply Z.log2_nonneg.
  (* q < 2^(la - lb + 1) *)
  assert (Hup : (q < pow2 (la - lb + 1))%Q).
  { assert (H1 : (q * pow2 lb < pow2 (la + 1))%Q).
    { apply Qle_lt_trans with (inject_Z (Qnum q)).
      - rewrite <- Q_as_ratio. apply Qmult_le_l; [exact Hq |].
        rewrite <- pow2_inject by exact Hlb. rewrite <- Zle_Qle. exact Hb1.
      - rewrite <- pow2_inject by lia. rewrite <- Zlt_Qlt.
        replace (la + 1) with (Z.succ la) by lia. exact Ha2. }
    apply (Qmult_lt_r _ _ (pow2 lb) (pow2_pos lb)).
    rewrite <- pow2_add. replace (la - lb + 1 + lb) with (la + 1) by lia. exact H1. }
  (* 2^(la - lb - 1) < q *)
  assert (Hlow : (pow2 (la - lb - 1) < q)%Q).
  { assert (H1 : (pow2 la < q * pow2 (lb + 1))%Q).
    { apply Qle_lt_trans with (inject_Z (Qnum q)).
      - rewrite <- pow2_inject by exact Hla. rewrite <- Zle_Qle. exact Ha1.
      - rewrite <- Q_as_ratio. apply Qmult_lt_l; [exact Hq |].
        rewrite <- pow2_inject by lia. rewrite <- Zlt_Qlt.
        replace (lb + 1) with (Z.succ lb) by lia. exact Hb2. }
    apply (Qmult_lt_r _ _ (pow2 (lb + 1)) (pow2_pos (lb + 1))).
    rewrite <- pow2_add. replace (la - lb - 1 + (lb + 1)) with la by lia. exact H1. }
  unfold floor_log2. cbv zeta. fold la lb.
  destruct (Qle_bool (pow2 (la - lb)) q) eqn:E.
  - apply Qle_bool_iff in E. split; [exact E | exact Hup].
  - split.
    + apply Qlt_le_weak. exact Hlow.
    + replace (la - lb - 1 + 1) with (la - lb) by lia.
      apply Qnot_le_lt. intros Hle. apply Qle_bool_iff in Hle. congruence.
Qed.

Lemma overflow_threshold_below : (inject_Z overflow_threshold < pow2 1024)%Q.
Proof. vm_compute. reflexivity. Qed.

Lemma overflow_threshold_scaled :
  (inject_Z overflow_threshold * pow2 (- 971) == inject_Z (2 ^ 53) - (1 # 2))%Q.
Proof. vm_compute. reflexivity. Qed.

Lemma top_binade_below : (inject_Z (2 ^ 53 - 1) * pow2 971 < pow2 1024)%Q.
Proof. vm_compute. reflexivity. Qed.

Lemma Qabs_of_nonneg (q : Q) : (0 <= q)%Q -> Qabs q = q.
Proof.
  destruct q as [n d]. unfold Qle. cbn [Qnum Qden Qabs]. intros H.
  rewrite Z.abs_eq by lia. reflexivity.
Qed.

Lemma round_binary64_zero (q : Q) : (q == 0)%Q -> round_binary64 q = Finite 0.
Proof.
  intros H. unfold round_binary64.
  apply Qeq_bool_iff in H. rewrite H. reflexivity.
Qed.

(** A positive rational below the threshold rounds to a finite number, which
    is nonnegative and below 2^1024. *)
Lemma round_binary64_finite (q : Q) :
  (0 < q)%Q -> (q < inject_Z overflow_threshold)%Q ->
  exists x, round_binary64 q = Finite x /\ (0 <= x)%Q /\ (x < pow2 1024)%Q.
Proof.
  intros Hpos Hlt. unfold round_binary64.
  destruct (Qeq_bool q 0) eqn:E0.
  { apply Qeq_bool_iff in E0. rewrite E0 in Hpos. discriminate Hpos. }
  cbv zeta. rewrite (Qabs_of_nonneg q) by (apply Qlt_le_weak; exact Hpos).
  destruct (floor_log2_spec q Hpos) as [Hlo Hhi].
  set (e := floor_log2 q) in *.
  assert (He : e <= 1023).
  { assert (e < 1024); [| lia]. apply pow2_lt_inv.
    apply Qle_lt_trans with q; [exact Hlo |].
    apply Qlt_trans with (inject_Z overflow_threshold);
      [exact Hlt | exact overflow_threshold_below]. }
  set (c := Z.max (e - 52) (-1074)).
  assert (Hc1 : e - 52 <= c) by (subst c; lia).
  assert (Hc2 : c <= 971) by (subst c; lia).
  set (y := (q / pow2 c)%Q).
  assert (Hy0 : (0 <= y)%Q).
  { subst y. rewrite div_pow2. apply Qmult_le_0_compat;
      apply Qlt_le_weak; [exact Hpos | apply pow2_pos]. }
  assert (Hy53 : (y < inject_Z (2 ^ 53))%Q).
  { subst y. rewrite div_pow2, pow2_inject by lia.
    apply Qlt_le_trans with (pow2 (e + 1) * pow2 (- c))%Q.
    - apply Qmult_lt_r; [apply pow2_pos | exact Hhi].
    - rewrite <- pow2_add. apply pow2_le_mono. lia. }
  set (m := round_half_even y).
  assert (Hm0 : 0 <= m) by (apply round_half_even_nonneg; exact Hy0).
  set (r := (inject_Z m * pow2 c)%Q).
  assert (Hr0 : (0 <= r)%Q).
  { subst r. apply Qmult_le_0_compat.
    - rewrite Zle_Qle in Hm0. exact Hm0.
    - apply Qlt_le_weak, pow2_pos. }
  assert (Hr : (r < pow2 1024)%Q).
  { subst r. destruct (Z.eq_dec c 971) as [Hc | Hc].
    - assert (Hm : m <= 2 ^ 53 - 1).
      { apply round_half_even_below_half. subst y. rewrite Hc, div_pow2.
        rewrite <- overflow_threshold_scaled.
        apply Qmult_lt_r; [apply pow2_pos | exact Hlt]. }
      rewrite Hc. apply Qle_lt_trans with (inject_Z (2 ^ 53 - 1) * pow2 971)%Q;
        [| exact top_binade_below].
      apply Qmult_le_compat_r; [| apply Qlt_le_weak, pow2_pos].
      rewrite <- Zle_Qle. exact Hm.
    - assert (Hm : m <= 2 ^ 53) by (apply round_half_even_le; exact Hy53).
      apply Qle_lt_trans with (inject_Z (2 ^ 53) * pow2 c)%Q.
      + apply Qmult_le_compat_r; [| apply Qlt_le_weak, pow2_pos].
        rewrite <- Zle_Qle. exact Hm.
      + rewrite pow2_inject, <- pow2_add by lia.
        apply Qle_lt_trans with (pow2 1023).
        * apply pow2_le_mono. lia.
        * vm_compute. reflexivity. }
  rewrite (Qabs_of_nonneg r Hr0).
  destruct (Qle_bool (pow2 1024) r) eqn:E.
  { apply Qle_bool_iff in E. exfalso. exact (Qlt_not_le _ _ Hr E). }
  exists (Qred r). split; [reflexivity |].
  rewrite (Qred_correct r). split; assumption.
Qed.

(** ** The claims about [get_expected_counts] *)

Lemma BENFORD_PROPS_small : forallb small_prop BENFORD_PROPS = true.
Proof. vm_compute. reflexivity. Qed.

Lemma float_of_int_finite (n : Z) :
  0 <= n < overflow_threshold ->
  exists x, float_of_int n = Ok (Finite x) /\ (0 <= x)%Q /\ (x < pow2 1024)%Q.
Proof.
  intros [H0 H1]. unfold float_of_int.
  destruct (Z.eq_dec n 0) as [-> | Hn].
  - exists 0%Q. split; [reflexivity | split; [apply Qle_refl | apply pow2_pos]].
  - destruct (round_binary64_finite (inject_Z n)) as [x [Hx Hb]].
    + unfold Qlt. cbn [Qnum Qden inject_Z]. lia.
    + rewrite <- Zlt_Qlt. exact H1.
    + rewrite Hx. exists x. split; [reflexivity | exact Hb].
Qed.

Lemma half_pow2_1024_below :
  (pow2 1024 * (1 # 2) < inject_Z overflow_threshold)%Q.
Proof. vm_compute. reflexivity. Qed.

Lemma float_mul_finite (x p : Q) :
  (0 <= x)%Q -> (x < pow2 1024)%Q -> (0 <= p)%Q -> (p <= 1 # 2)%Q ->
  exists y, float_mul (Finite x) (Finite p) = Finite y.
Proof.
  intros Hx0 Hx1 Hp0 Hp1. cbn [float_mul].
  assert (H0 : (0 <= x * p)%Q) by (apply Qmult_le_0_compat; assumption).
  destruct (Qeq_dec (x * p) 0) as [Hz | Hnz].
  - exists 0%Q. apply round_binary64_zero. exact Hz.
  - destruct (round_binary64_finite (x * p)%Q) as [y [Hy _]].
    + apply Qle_lt_or_eq in H0. destruct H0 as [H0 | H0]; [exact H0 |].
      exfalso. apply Hnz. symmetry. exact H0.
    + apply Qle_lt_trans with (x * (1 # 2))%Q.
      * rewrite (Qmult_comm x p), (Qmult_comm x (1 # 2)).
        apply Qmult_le_compat_r; assumption.
      * apply Qlt_trans with (pow2 1024 * (1 # 2))%Q;
          [| exact half_pow2_1024_below].
        apply Qmult_lt_r; [reflexivity | exact Hx1].
    + exists y. exact Hy.
Qed.

Lemma rmap_total {A B : Type} (f : A -> result B) (xs : list A) :
  (forall x, In x xs -> exists y, f x = Ok y) -> exists ys, rmap f xs = Ok ys.
Proof.
  induction xs as [| x xs IH]; intros H; cbn [rmap].
  - exists []. reflexivity.
  - destruct (H x (or_introl eq_refl)) as [y Hy].
    destruct IH as [ys Hys]; [intros x' Hx'; apply H; right; exact Hx' |].
    exists (y :: ys). rewrite Hy. cbn [rbind]. rewrite Hys. reflexivity.
Qed.

Lemma rmap_spec {A B : Type} (f : A -> result B) (xs : list A) (ys : list B) :
  rmap f xs = Ok ys ->
  List.length ys = List.length xs /\
  forall i x, nth_error xs i = Some x ->
    exists y, nth_error ys i = Some y /\ f x = Ok y.
Proof.
  revert ys. induction xs as [| x xs IH]; intros ys; cbn [rmap].
  - intros [= <-]. split; [reflexivity |]. intros [| i] x' H; discriminate H.
  - destruct (f x) as [y | e] eqn:Hy; cbn [rbind]; [| discriminate].
    destruct (rmap f xs) as [ys' | e]; cbn [rbind]; [| discriminate].
    intros [= <-]. destruct (IH ys' eq_refl) as [Hlen Hnth].
    split; [cbn [List.length]; rewrite Hlen; reflexivity |].
    intros [| i] x' H; cbn [nth_error] in *.
    + injection H as <-. exists y. split; [reflexivity | exact Hy].
    + apply Hnth. exact H.
Qed.

Lemma expected_count_defined (total : Z) (prop : float64) :
  0 <= total < overflow_threshold -> In prop BENFORD_PROPS ->
  exists c, (x <- int_times_float total prop ;; py_round x)%result = Ok c.
Proof.
  intros Htotal Hin.
  destruct (float_of_int_finite total Htotal) as [x [Hx [Hx0 Hx1]]].
  pose proof BENFORD_PROPS_small as Hsmall.
  rewrite forallb_forall in Hsmall. specialize (Hsmall prop Hin).
  destruct prop as [p | s |]; try discriminate Hsmall.
  cbn [small_prop] in Hsmall. apply andb_true_iff in Hsmall.
  destruct Hsmall as [Hp0 Hp1]. apply Qle_bool_iff in Hp0, Hp1.
  destruct (float_mul_finite x p Hx0 Hx1 Hp0 Hp1) as [y Hy].
  exists (round_half_even y).
  unfold int_times_float. rewrite Hx. cbn [rbind]. rewrite Hy. reflexivity.
Qed.

(** Exact conversions and the size of the rounding errors. *)

Lemma round_half_even_integer (y : Q) (k : Z) :
  (y == inject_Z k)%Q -> round_half_even y = k.
Proof.
  unfold Qeq. cbn [Qnum Qden inject_Z]. intros H.
  unfold round_half_even. cbv zeta.
  assert (Hd : Qnum y = k * Zpos (Qden y)) by lia.
  rewrite Hd, Z.div_mul, Z.mod_mul by lia.
  destruct (Z.ltb_spec (2 * 0) (Zpos (Qden y))); [reflexivity | lia].
Qed.

Lemma round_half_even_upper (y : Q) (K : Z) :
  (y <= inject_Z K)%Q -> round_half_even y <= K.
Proof.
  intros H. destruct (Qle_lt_or_eq _ _ H) as [Hlt | Heq].
  - apply round_half_even_le. exact Hlt.
  - rewrite (round_half_even_integer y K Heq). lia.
Qed.

Lemma Qred_inject_Z (n : Z) : Qred (inject_Z n) = inject_Z n.
Proof.
  unfold Qred, inject_Z.
  pose proof (Z.ggcd_gcd n 1) as Hg. pose proof (Z.ggcd_correct_divisors n 1) as Hd.
  destruct (Z.ggcd n 1) as [g [a b]]. cbn [fst snd] in *.
  rewrite Z.gcd_1_r in Hg. subst g. destruct Hd as [Ha Hb].
  assert (Ha' : a = n) by lia. assert (Hb' : b = 1) by lia.
  rewrite Ha', Hb'. reflexivity.
Qed.

(** Integers below 2^53 convert to floats exactly. *)
Lemma float_of_int_exact (n : Z) :
  0 <= n < 2 ^ 53 -> float_of_int n = Ok (Finite (inject_Z n)).
Proof.
  intros [H0 H1]. unfold float_of_int.
  destruct (Z.eq_dec n 0) as [-> | Hn]; [reflexivity |].
  assert (Hpos : (0 < inject_Z n)%Q) by (unfold Qlt; cbn [Qnum Qden inject_Z]; lia).
  unfold round_binary64.
  destruct (Qeq_bool (inject_Z n) 0) eqn:E0.
  { apply Qeq_bool_iff in E0. rewrite E0 in Hpos. discriminate Hpos. }
  cbv zeta. rewrite (Qabs_of_nonneg _ (Qlt_le_weak _ _ Hpos)).
  destruct (floor_log2_spec _ Hpos) as [Hlo Hhi].
  set (e := floor_log2 (inject_Z n)) in *.
  assert (He1 : e < 53).
  { apply pow2_lt_inv. apply Qle_lt_trans with (inject_Z n); [exact Hlo |].
    rewrite <- pow2_inject, <- Zlt_Qlt by lia. exact H1. }
  assert (He0 : 0 <= e).
  { destruct (Z.lt_ge_cases e 0) as [Hneg | Hge]; [exfalso | exact Hge].
    assert (Hlt1 : (inject_Z n < inject_Z 1)%Q).
    { apply Qlt_le_trans with (pow2 (e + 1)); [exact Hhi |].
      change (inject_Z 1) with (pow2 0). apply pow2_le_mono. lia. }
    rewrite <- Zlt_Qlt in Hlt1. lia. }
  replace (Z.max (e - 52) (-1074)) with (e - 52) by lia.
  set (c := e - 52).
  assert (Hy : (inject_Z n / pow2 c == inject_Z (n * 2 ^ (- c)))%Q).
  { rewrite div_pow2, inject_Z_mult, pow2_inject by lia. reflexivity. }
  rewrite (round_half_even_integer _ _ Hy).
  assert (Hr : (inject_Z (n * 2 ^ (- c)) * pow2 c == inject_Z n)%Q).
  { rewrite inject_Z_mult, pow2_inject by lia.
    rewrite <- Qmult_assoc, <- pow2_add.
    replace (- c + c) with 0 by lia. change (pow2 0) with 1%Q. apply Qmult_1_r. }
  set (r := (inject_Z (n * 2 ^ (- c)) * pow2 c)%Q) in *.
  assert (Hr0 : (0 <= r)%Q) by (rewrite Hr; apply Qlt_le_weak; exact Hpos).
  rewrite (Qabs_of_nonneg r Hr0).
  destruct (Qle_bool (pow2 1024) r) eqn:E.
  { apply Qle_bool_iff in E. exfalso. rewrite Hr in E.
    apply (Qlt_not_le (inject_Z n) (pow2 1024)); [| exact E].
    apply Qlt_le_trans with (pow2 53).
    - rewrite <- pow2_inject, <- Zlt_Qlt by lia. exact H1.
    - apply pow2_le_mono. lia. }
  rewrite (Qred_complete _ _ Hr), Qred_inject_Z. reflexivity.
Qed.

(** Rounding keeps a number of the unit interval inside it. *)
Lemma round_binary64_unit (q : Q) :
  (0 <= q)%Q -> (q <= 1)%Q -> is_proportion (round_binary64 q).
Proof.
  intros H0 H1. destruct (Qeq_dec q 0) as [Hz | Hnz].
  { rewrite (round_binary64_zero q Hz). exists 0%Q. repeat split; discriminate. }
  assert (Hpos : (0 < q)%Q).
  { destruct (Qle_lt_or_eq _ _ H0) as [H | H]; [exact H |].
    exfalso. apply Hnz. symmetry. exact H. }
  unfold round_binary64.
  destruct (Qeq_bool q 0) eqn:E0.
  { apply Qeq_bool_iff in E0. contradiction. }
  cbv zeta. rewrite (Qabs_of_nonneg q H0).
  destruct (floor_log2_spec q Hpos) as [Hlo Hhi].
  set (e := floor_log2 q) in *.
  assert (He : e <= 0).
  { assert (e < 1); [| lia]. apply pow2_lt_inv.
    apply Qle_lt_trans with q; [exact Hlo |].
    apply Qle_lt_trans with 1%Q; [exact H1 | reflexivity]. }
  set (c := Z.max (e - 52) (-1074)).
  assert (Hc : c < 0) by (subst c; lia).
  set (y := (q / pow2 c)%Q).
  assert (Hy0 : (0 <= y)%Q).
  { subst y. rewrite div_pow2. apply Qmult_le_0_compat;
      [exact H0 | apply Qlt_le_weak, pow2_pos]. }
  assert (Hy1 : (y <= inject_Z (2 ^ (- c)))%Q).
  { subst y. rewrite div_pow2, pow2_inject by lia.
    rewrite <- (Qmult_1_l (pow2 (- c))) at 2.
    apply Qmult_le_compat_r; [exact H1 | apply Qlt_le_weak, pow2_pos]. }
  set (m := round_half_even y).
  assert (Hm0 : 0 <= m) by (apply round_half_even_nonneg; exact Hy0).
  assert (Hm1 : m <= 2 ^ (- c)) by (apply round_half_even_upper; exact Hy1).
  set (r := (inject_Z m * pow2 c)%Q).
  assert (Hr0 : (0 <= r)%Q).
  { subst r. apply Qmult_le_0_compat; [| apply Qlt_le_weak, pow2_pos].
    rewrite Zle_Qle in Hm0. exact Hm0. }
  assert (Hr1 : (r <= 1)%Q).
  { subst r. apply Qle_trans with (inject_Z (2 ^ (- c)) * pow2 c)%Q.
    - apply Qmult_le_compat_r; [| apply Qlt_le_weak, pow2_pos].
      rewrite <- Zle_Qle. exact Hm1.
    - rewrite pow2_inject, <- pow2_add by lia.
      replace (- c + c) with 0 by lia. apply Qle_refl. }
  rewrite (Qabs_of_nonneg r Hr0).
  destruct (Qle_bool (pow2 1024) r) eqn:E.
  { apply Qle_bool_iff in E. exfalso.
    apply (Qlt_not_le r (pow2 1024)); [| exact E].
    apply Qle_lt_trans with 1%Q; [exact Hr1 | vm_compute; reflexivity]. }
  exists (Qred r). split; [reflexivity |]. rewrite (Qred_correct r). split; assumption.
Qed.

Lemma round_half_even_error (y : Q) :
  (inject_Z (round_half_even y) - (1 # 2) <= y)%Q /\
  (y <= inject_Z (round_half_even y) + (1 # 2))%Q.
Proof.
  unfold round_half_even. cbv zeta.
  pose proof (Z.div_mod (Qnum y) (Zpos (Qden y)) ltac:(lia)) as Hdm.
  pose proof (Z.mod_pos_bound (Qnum y) (Zpos (Qden y)) ltac:(lia)) as Hr.
  set (f := Qnum y / Zpos (Qden y)) in *.
  set (r := Qnum y mod Zpos (Qden y)) in *.
  unfold Qle, Qminus, Qplus, Qopp. cbn [Qnum Qden inject_Z].
  set (d := Zpos (Qden y)) in *.
  replace (Z.pos (1 * 2 * Qden y)) with (2 * d) by (subst d; lia).
  replace (Z.pos (Qden y)) with d by reflexivity.
  replace (Z.pos (1 * 2)) with 2 by reflexivity.
  destruct (Z.ltb_spec (2 * r) d); [nia |].
  destruct (Z.ltb_spec d (2 * r)); [nia |].
  destruct (Z.even f); nia.
Qed.

Lemma pow2_minus_6 : (pow2 (-6) == 1 # 64)%Q.
Proof. reflexivity. Qed.

(** Below 2^47 the rounding error of binary64 is at most 2^-7. *)
Lemma round_binary64_error (q : Q) :
  (0 < q)%Q -> (q < pow2 47)%Q ->
  exists x, round_binary64 q = Finite x /\
            (q - (1 # 128) <= x)%Q /\ (x <= q + (1 # 128))%Q.
Proof.
  intros Hpos Hlt. unfold round_binary64.
  destruct (Qeq_bool q 0) eqn:E0.
  { apply Qeq_bool_iff in E0. rewrite E0 in Hpos. discriminate Hpos. }
  cbv zeta. rewrite (Qabs_of_nonneg q) by (apply Qlt_le_weak; exact Hpos).
  destruct (floor_log2_spec q Hpos) as [Hlo Hhi].
  set (e := floor_log2 q) in *.
  assert (He : e < 47).
  { apply pow2_lt_inv. apply Qle_lt_trans with q; assumption. }
  set (c := Z.max (e - 52) (-1074)).
  assert (Hc : c <= -6) by (subst c; lia).
  pose proof (pow2_pos c) as Ht0.
  assert (Ht1 : (pow2 c <= 1 # 64)%Q).
  { rewrite <- pow2_minus_6. apply pow2_le_mono. exact Hc. }
  set (y := (q / pow2 c)%Q).
  assert (Hyq : (y * pow2 c == q)%Q).
  { subst y. unfold Qdiv. rewrite <- Qmult_assoc, (Qmult_comm (/ pow2 c)).
    rewrite Qmult_inv_r; [apply Qmult_1_r |].
    intros H. rewrite H in Ht0. discriminate Ht0. }
  assert (Hy0 : (0 <= y)%Q).
  { subst y. rewrite div_pow2. apply Qmult_le_0_compat;
      apply Qlt_le_weak; [exact Hpos | apply pow2_pos]. }
  destruct (round_half_even_error y) as [Hm1 Hm2].
  set (m := round_half_even y) in *.
  set (r := (inject_Z m * pow2 c)%Q).
  assert (Hr1 : (r - (1 # 2) * pow2 c <= q)%Q).
  { rewrite <- Hyq. subst r.
    setoid_replace (inject_Z m * pow2 c - (1 # 2) * pow2 c)%Q
      with ((inject_Z m - (1 # 2)) * pow2 c)%Q by ring.
    apply Qmult_le_compat_r; [exact Hm1 | apply Qlt_le_weak; exact Ht0]. }
  assert (Hr2 : (q <= r + (1 # 2) * pow2 c)%Q).
  { rewrite <- Hyq. subst r.
    setoid_replace (inject_Z m * pow2 c + (1 # 2) * pow2 c)%Q
      with ((inject_Z m + (1 # 2)) * pow2 c)%Q by ring.
    apply Qmult_le_compat_r; [exact Hm2 | apply Qlt_le_weak; exact Ht0]. }
  assert (Hr0 : (0 <= r)%Q).
  { subst r. apply Qmult_le_0_compat; [| apply Qlt_le_weak; exact Ht0].
    change 0%Q with (inject_Z 0). rewrite <- Zle_Qle.
    apply round_half_even_nonneg. exact Hy0. }
  rewrite (Qabs_of_nonneg r Hr0).
  destruct (Qle_bool (pow2 1024) r) eqn:E.
  { apply Qle_bool_iff in E. exfalso.
    assert (H47 : (pow2 47 + 1 <= pow2 1024)%Q) by (vm_compute; discriminate).
    lra. }
  exists (Qred r). split; [reflexivity |]. rewrite (Qred_correct r). split; lra.
Qed.

(** One expected count, for a total below 2^48 and a proportion of at most
    one half: within 1/2 + 1/128 of the exact product. *)
Lemma expected_count_error (total : Z) (p : Q) :
  1 <= total < 2 ^ 48 -> (0 < p)%Q -> (p <= 1 # 2)%Q ->
  exists c : Z,
    (x <- int_times_float total (Finite p) ;; py_round x)%result = Ok c /\
    (inject_Z total * p - (65 # 128) <= inject_Z c)%Q /\
    (inject_Z c <= inject_Z total * p + (65 # 128))%Q.
Proof.
  intros [H1 H2] Hp0 Hp1.
  assert (Hn0 : (1 <= inject_Z total)%Q).
  { change 1%Q with (inject_Z 1). rewrite <- Zle_Qle. exact H1. }
  assert (Hn1 : (inject_Z total < inject_Z (2 ^ 48))%Q) by (rewrite <- Zlt_Qlt; exact H2).
  assert (Hq0 : (0 < inject_Z total * p)%Q).
  { apply Qmult_lt_0_compat; [lra | exact Hp0]. }
  assert (Hq1 : (inject_Z total * p < pow2 47)%Q).
  { apply Qle_lt_trans with (inject_Z total * (1 # 2))%Q.
    - rewrite !(Qmult_comm (inject_Z total)).
      apply Qmult_le_compat_r; [exact Hp1 | lra].
    - assert (E : (pow2 47 == inject_Z (2 ^ 48) * (1 # 2))%Q) by reflexivity.
      rewrite E. apply Qmult_lt_compat_r; [reflexivity | exact Hn1]. }
  destruct (round_binary64_error _ Hq0 Hq1) as [x [Hx [Hx1 Hx2]]].
  exists (round_half_even x).
  unfold int_times_float.
  rewrite (float_of_int_exact total) by (split; [lia |];
    apply Z.lt_trans with (2 ^ 48); [exact H2 | reflexivity]).
  cbn [rbind float_mul]. rewrite Hx. cbn [py_round].
  split; [reflexivity |].
  destruct (round_half_even_error x) as [Hm1 Hm2]. split; lra.
Qed.

Lemma BENFORD_PROPS_values : BENFORD_PROPS = map Finite proportion_values.
Proof. vm_compute. reflexivity. Qed.

Lemma expected_counts_enclosure (total : Z) :
  1 <= total < 2 ^ 48 ->
  exists counts : list Z,
    get_expected_counts total = Ok counts /\
    Forall2 (near_product total) counts proportion_values.
Proof.
  intros Ht. unfold get_expected_counts. rewrite BENFORD_PROPS_values.
  assert (Hall : Forall (fun p => (0 < p)%Q /\ (p <= 1 # 2)%Q) proportion_values).
  { repeat constructor; discriminate. }
  induction Hall as [| p ps [Hp0 Hp1] _ IH]; cbn [map rmap].
  - exists []. split; [reflexivity | constructor].
  - destruct (expected_count_error total p Ht Hp0 Hp1) as [c [Hc Hnear]].
    destruct IH as [cs [Hcs Hall]].
    exists (c :: cs). rewrite Hc. cbn [rbind]. rewrite Hcs. cbn [rbind].
    split; [reflexivity | constructor; [exact Hnear | exact Hall]].
Qed.

Ltac nine_counts H :=
  unfold proportion_values in H;
  repeat match type of H with
         | Forall2 _ _ (_ :: _) =>
             let c := fresh "c" in
             let Hc := fresh "Hc" in
             let Hrest := fresh "Hrest" in
             inversion H as [| c ? ? ? Hc Hrest]; subst; clear H; rename Hrest into H;
             destruct Hc as [? ?]
         | Forall2 _ _ [] => inversion H; subst; clear H
         end.

Ltac as_rationals total :=
  repeat match goal with
         | H : context [inject_Z total] |- _ => revert H
         end;
  generalize (inject_Z total);
  repeat match goal with
         | |- context [inject_Z ?c] => generalize (inject_Z c)
         end;
  intros.

Lemma round_half_even_nearest (q : Q) : nearest_ties_even (round_half_even q) q.
Proof.
  destruct (round_half_even_error q) as [H1 H2].
  split; [exact H1 | split; [exact H2 |]].
  intros [Ht | Ht].
  - assert (Hq : (q == inject_Z (round_half_even q - 1) + (1 # 2))%Q).
    { assert (E1 : (inject_Z (round_half_even q - 1) == inject_Z (round_half_even q) - 1)%Q).
      { unfold Qeq, Qminus, Qplus, Qopp. cbn [Qnum Qden inject_Z]. lia. }
      lra. }
    pose proof (round_half_even_tie q _ Hq) as E.
    destruct (Z.even (round_half_even q - 1)) eqn:Hev; [lia |].
    replace (round_half_even q) with (Z.succ (round_half_even q - 1)) at 1 by lia.
    rewrite Z.even_succ, <- Z.negb_even, Hev. reflexivity.
  - pose proof (round_half_even_tie q _ Ht) as E.
    destruct (Z.even (round_half_even q)); [reflexivity | lia].
Qed.

(** The notion determines the integer. *)
Lemma nearest_ties_even_unique (c : Z) (q : Q) :
  nearest_ties_even c q -> c = round_half_even q.
Proof.
  intros [H1 [H2 H3]].
  destruct (round_half_even_nearest q) as [G1 [G2 G3]].
  set (r := round_half_even q) in *.
  assert (Hd : (inject_Z c - inject_Z r <= 1)%Q /\ (inject_Z r - inject_Z c <= 1)%Q)
    by (split; lra).
  destruct Hd as [Hd1 Hd2].
  assert (Hz : c - r <= 1 /\ r - c <= 1).
  { revert Hd1 Hd2. unfold Qle, Qminus, Qplus, Qopp. cbn [Qnum Qden inject_Z]. lia. }
  destruct (Z.eq_dec c r) as [E | N]; [exact E | exfalso].
  assert (Hc : c = r + 1 \/ r = c + 1) by lia.
  destruct Hc as [-> | Hc].
  - assert (E1 : (inject_Z (r + 1) == inject_Z r + 1)%Q).
    { unfold Qeq, Qplus. cbn [Qnum Qden inject_Z]. lia. }
    assert (T1 : (q == inject_Z (r + 1) - (1 # 2))%Q) by lra.
    assert (T2 : (q == inject_Z r + (1 # 2))%Q) by lra.
    pose proof (H3 (or_introl T1)) as E2. pose proof (G3 (or_intror T2)) as E3.
    replace (r + 1) with (Z.succ r) in E2 by lia.
    rewrite Z.even_succ, <- Z.negb_even, E3 in E2. discriminate E2.
  - rewrite Hc in *.
    assert (E1 : (inject_Z (c + 1) == inject_Z c + 1)%Q).
    { unfold Qeq, Qplus. cbn [Qnum Qden inject_Z]. lia. }
    assert (T1 : (q == inject_Z (c + 1) - (1 # 2))%Q) by lra.
    assert (T2 : (q == inject_Z c + (1 # 2))%Q) by lra.
    pose proof (G3 (or_introl T1)) as E2. pose proof (H3 (or_intror T2)) as E3.
    replace (c + 1) with (Z.succ c) in E2 by lia.
    rewrite Z.even_succ, <- Z.negb_even, E3 in E2. discriminate E2.
Qed.

(** [BENFORD_PROPS] holds the binary64 readings of the decimals. *)
Lemma BENFORD_PROPS_literals : BENFORD_PROPS = map float_literal BENFORD_DECIMALS.
Proof. reflexivity. Qed.

Lemma expected_counts_near_decimals (total : Z) (counts : list Z) :
  0 <= total < 2 ^ 48 ->
  get_expected_counts total = Ok counts ->
  Forall2 (near_decimal_product total) counts BENFORD_DECIMALS.
Proof.
  intros [H0 H1] Hcounts.
  destruct (Z.eq_dec total 0) as [-> | Hn].
  - vm_compute in Hcounts. injection Hcounts as <-.
    repeat constructor; vm_compute; discriminate.
  - destruct (expected_counts_enclosure total ltac:(lia)) as [counts' [Hc' Hnear]].
    rewrite Hcounts in Hc'. injection Hc' as <-.
    assert (Ht0 : (1 <= inject_Z total)%Q).
    { unfold Qle. cbn [Qnum Qden inject_Z]. lia. }
    assert (Ht1 : (inject_Z total < inject_Z (2 ^ 48))%Q).
    { rewrite <- Zlt_Qlt. exact H1. }
    assert (E48 : (inject_Z (2 ^ 48) == 281474976710656)%Q) by reflexivity.
    rewrite E48 in Ht1. clear E48.
    nine_counts Hnear. unfold BENFORD_DECIMALS, near_decimal_product.
    repeat (apply Forall2_cons; [split |]); try apply Forall2_nil;
      as_rationals total; lra.
Qed.

(** C4 (amended).  For every total from 0 up to the largest integer that
    converts to a float, the function returns nine counts; the one at
    position [i] is the integer nearest to the binary64 product of the total
    and the [i]-th proportion, the even one on a tie, and for a total below
    2^48 it is within 1/2 + 1/64 of the exact product of the total and the
    decimal proportion.  For a total of 1000 the counts are 301, 176, 125,
    97, 79, 67, 58, 51 and 46, which sum to 1000. *)
Theorem C4_expected_counts (total : Z) :
  0 <= total < overflow_threshold ->
  (exists counts : list Z,
     get_expected_counts total = Ok counts /\
     List.length counts = 9%nat /\
     (forall (i : nat) (prop : float64),
        nth_error BENFORD_PROPS i = Some prop ->
        exists (q : Q) (c : Z),
          int_times_float total prop = Ok (Finite q) /\
          nth_error counts i = Some c /\
          nearest_ties_even c q) /\
     (total < 2 ^ 48 ->
      Forall2 (near_decimal_product total) counts BENFORD_DECIMALS)) /\
  (get_expected_counts 1000 = Ok [301; 176; 125; 97; 79; 67; 58; 51; 46] /\
   sum [301; 176; 125; 97; 79; 67; 58; 51; 46] = 1000).
Proof.
  intros Htotal. split.
  - destruct (rmap_total
                (fun prop => (x <- int_times_float total prop ;; py_round x)%result)
                BENFORD_PROPS) as [counts Hcounts].
    { intros prop Hin. apply expected_count_defined; assumption. }
    exists counts. split; [exact Hcounts |].
    destruct (rmap_spec _ _ _ Hcounts) as [Hlen Hnth].
    split; [rewrite Hlen; reflexivity |]. split.
    + intros i prop Hprop. destruct (Hnth i prop Hprop) as [c [Hc Hf]].
      destruct (int_times_float total prop) as [[q | s |] | e];
        cbn [rbind py_round] in Hf; try discriminate Hf.
      injection Hf as <-.
      exists q, (round_half_even q).
      split; [reflexivity | split; [exact Hc | apply round_half_even_nearest]].
    + intros H48. apply expected_counts_near_decimals; [lia | exact Hcounts].
  - split; vm_compute; reflexivity.
Qed.

Lemma C4_witness :
  (exists counts : list Z,
     get_expected_counts 2500 = Ok counts /\
     List.length counts = 9%nat /\
     (forall (i : nat) (prop : float64),
        nth_error BENFORD_PROPS i = Some prop ->
        exists (q : Q) (c : Z),
          int_times_float 2500 prop = Ok (Finite q) /\
          nth_error counts i = Some c /\
          nearest_ties_even c q) /\
     (2500 < 2 ^ 48 ->
      Forall2 (near_decimal_product 2500) counts BENFORD_DECIMALS)) /\
  (get_expected_counts 1000 = Ok [301; 176; 125; 97; 79; 67; 58; 51; 46] /\
   sum [301; 176; 125; 97; 79; 67; 58; 51; 46] = 1000).
Proof.
  apply (C4_expected_counts 2500). split; [lia | vm_compute; reflexivity].
Defined.

(** C4 as stated fails in two ways.  The function does not return for
    every nonnegative total: 2^1024 does not convert to a float and the call
    raises [OverflowError].  And where it returns, the count is not always
    the rounded exact product of the total and the decimal proportion,
    whichever way a tie is rounded: for the total 2500 and the digit 8,
    2500 * 0.051 is 127.5, which rounds to 128, while the binary64 product
    is below 127.5 and the count is 127. *)
Lemma C4_counterexample :
  ~ (forall total : Z, 0 <= total ->
       exists counts : list Z,
         get_expected_counts total = Ok counts /\ List.length counts = 9%nat) /\
  ~ (forall (total : Z) (i : nat) (d : Q) (counts : list Z),
       0 <= total < overflow_threshold ->
       get_expected_counts total = Ok counts ->
       nth_error BENFORD_DECIMALS i = Some d ->
       nth_error counts i = Some (round_half_even (inject_Z total * d)) \/
       nth_error counts i = Some (round_half_away (inject_Z total * d))).
Proof.
  split.
  - intros H. destruct (H (2 ^ 1024) ltac:(lia)) as [counts [Hc _]].
    vm_compute in Hc. discriminate Hc.
  - intros H.
    destruct (H 2500 7%nat (51 # 1000)%Q
                [752; 440; 312; 242; 198; 168; 145; 127; 115]) as [E | E].
    + split; [lia | vm_compute; reflexivity].
    + vm_compute. reflexivity.
    + reflexivity.
    + vm_compute in E. discriminate E.
    + vm_compute in E. discriminate E.
Qed.

Lemma round_half_away_tie (q : Q) (k : Z) :
  0 <= k -> (q == inject_Z k + (1 # 2))%Q -> round_half_away q = k + 1.
Proof.
  intros Hk Hq. unfold round_half_away.
  assert (Hpos : Qle_bool 0 q = true).
  { apply Qle_bool_iff. rewrite Hq. unfold Qle, Qplus. cbn [Qnum Qden inject_Z]. lia. }
  rewrite Hpos.
  assert (Heq : (q + (1 # 2) == inject_Z (k + 1))%Q).
  { rewrite Hq. unfold Qeq, Qplus. cbn [Qnum Qden inject_Z]. lia. }
  rewrite (Qfloor_comp _ _ Heq). apply Qfloor_Z.
Qed.

(** C10 (amended).  Whenever the product of the total and a proportion, as the code
    computes it in binary64, is exactly halfway between the integers [k] and
    [k + 1], the expected count is the even one of the two; for an even
    [k >= 0] this is not what rounding half away from zero gives. *)
Theorem C10_ties_round_to_even
    (total : Z) (i : nat) (prop : float64) (q : Q) (k : Z) :
  0 <= total < overflow_threshold ->
  nth_error BENFORD_PROPS i = Some prop ->
  int_times_float total prop = Ok (Finite q) ->
  (q == inject_Z k + (1 # 2))%Q ->
  exists counts : list Z,
    get_expected_counts total = Ok counts /\
    nth_error counts i = Some (if Z.even k then k else k + 1) /\
    (0 <= k -> Z.even k = true -> nth_error counts i <> Some (round_half_away q)).
Proof.
  intros Htotal Hprop Hx Hq.
  destruct (rmap_total
              (fun prop => (x <- int_times_float total prop ;; py_round x)%result)
              BENFORD_PROPS) as [counts Hcounts].
  { intros prop' Hin. apply expected_count_defined; assumption. }
  exists counts. split; [exact Hcounts |].
  destruct (rmap_spec _ _ _ Hcounts) as [_ Hnth].
  destruct (Hnth i prop Hprop) as [c [Hc Hf]].
  rewrite Hx in Hf. cbn [rbind py_round] in Hf. injection Hf as Hf.
  rewrite (round_half_even_tie q k Hq) in Hf. subst c.
  split; [exact Hc |].
  intros Hk Heven. rewrite Hc, Heven, (round_half_away_tie q k Hk Hq).
  intros [= H]. lia.
Qed.

Lemma C10_witness :
  exists counts : list Z,
    get_expected_counts 4 = Ok counts /\
    nth_error counts 2 = Some (if Z.even 0 then 0 else 0 + 1) /\
    (0 <= 0 -> Z.even 0 = true ->
     nth_error counts 2 <> Some (round_half_away (1 # 2))).
Proof.
  apply (C10_ties_round_to_even 4 2 (Finite (1 # 8)) (1 # 2) 0).
  - split; [lia | vm_compute; reflexivity].
  - vm_compute. reflexivity.
  - vm_compute. reflexivity.
  - reflexivity.
Defined.

(** C10 as stated fails: for the total 2500 and the digit 8 the product
    of the total and the decimal proportion, 2500 * 0.051, is exactly 127.5,
    halfway between 127 and 128, and the count is the odd 127, because the
    binary64 product the code rounds is below 127.5. *)
Lemma C10_counterexample :
  ~ (forall (total : Z) (i : nat) (d : Q) (k : Z) (counts : list Z),
       0 <= total < overflow_threshold ->
       get_expected_counts total = Ok counts ->
       nth_error BENFORD_DECIMALS i = Some d ->
       (inject_Z total * d == inject_Z k + (1 # 2))%Q ->
       nth_error counts i = Some (if Z.even k then k else k + 1)).
Proof.
  intros H.
  assert (E : nth_error [752; 440; 312; 242; 198; 168; 145; 127; 115] 7
              = Some (if Z.even 127 then 127 else 127 + 1)).
  { apply (H 2500 7%nat (51 # 1000)%Q 127).
    - split; [lia | vm_compute; reflexivity].
    - vm_compute. reflexivity.
    - reflexivity.
    - reflexivity. }
  vm_compute in E. discriminate E.
Qed.

(* ================================================================== *)
(** * Part III: further properties of the program *)
(* ================================================================== *)

(** ** The counter *)

Lemma count_error_none (v : value) :
  count_error v = None <-> starts_with_1_to_9 v = true.
Proof.
  rewrite starts_with_1_to_9_digit. unfold count_error. split.
  - destruct (first_digit v) as [d | e]; [| discriminate].
    destruct (Z.leb_spec 1 d), (Z.leb_spec d 9); cbn [andb]; try discriminate.
    intros _. exists d. split; [reflexivity | lia].
  - intros [d [-> Hd]].
    destruct (Z.leb_spec 1 d), (Z.leb_spec d 9); cbn [andb]; try lia. reflexivity.
Qed.

Lemma count_error_some (v : value) (e : exn) :
  count_error v = Some e ->
  first_digit v = Raise e \/
  exists d, first_digit v = Ok d /\ ~ 1 <= d <= 9 /\ e = KeyError d.
Proof.
  unfold count_error. destruct (first_digit v) as [d | e'].
  - destruct (Z.leb_spec 1 d), (Z.leb_spec d 9); cbn [andb]; try discriminate;
      intros [= <-]; right; exists d; (split; [reflexivity | split; [lia | reflexivity]]).
  - intros [= <-]. left. reflexivity.
Qed.

Lemma first_error_none (series : list value) :
  first_error series = None <->
  Forall (fun v => starts_with_1_to_9 v = true) series.
Proof.
  induction series as [| v rest IH]; cbn [first_error].
  - split; [constructor | reflexivity].
  - destruct (count_error v) as [e |] eqn:E.
    + split; [discriminate |]. intros H. inversion H as [| ? ? Hv _]; subst.
      apply count_error_none in Hv. congruence.
    + rewrite IH. split.
      * intros H. constructor; [apply count_error_none; exact E | exact H].
      * intros H. inversion H; assumption.
Qed.

Lemma first_error_some (series : list value) (e : exn) :
  first_error series = Some e ->
  exists pre v post,
    series = pre ++ v :: post /\
    Forall (fun u => starts_with_1_to_9 u = true) pre /\
    count_error v = Some e.
Proof.
  induction series as [| v rest IH]; cbn [first_error]; [discriminate |].
  destruct (count_error v) as [e' |] eqn:E.
  - intros [= <-]. exists [], v, rest. repeat split; [constructor | exact E].
  - intros H. destruct (IH H) as [pre [u [post [-> [Hpre Hu]]]]].
    exists (v :: pre), u, post. repeat split; [| exact Hu].
    constructor; [apply count_error_none; exact E | exact Hpre].
Qed.

(** X1.  What the counter returns is decided by the first value that makes
    the loop body raise: that value's exception when there is one, whatever
    comes after it, and the counts of all digits when there is none. *)
Theorem counter_outcome (series : list value) :
  FrequencyCounter series =
  match first_error series with
  | Some e => Raise e
  | None => Ok (tallies series)
  end.
Proof.
  destruct (first_error series) as [e |] eqn:E.
  - destruct (first_error_some series e E) as [pre [v [post [-> [Hpre Hv]]]]].
    unfold FrequencyCounter.
    rewrite (FrequencyCounter_fails_at pre post v e Hpre (count_error_some v e Hv)).
    reflexivity.
  - apply first_error_none in E. unfold FrequencyCounter.
    rewrite (FrequencyCounter_tallies series E). reflexivity.
Qed.

Lemma tally_permutation (d : Z) (s1 s2 : list value) :
  Permutation s1 s2 -> tally d s1 = tally d s2.
Proof.
  induction 1 as [| v l l' _ IH | u v l | l l' l'' _ IH1 _ IH2]; cbn [tally].
  - reflexivity.
  - rewrite IH. reflexivity.
  - lia.
  - rewrite IH1. exact IH2.
Qed.

Lemma tally_app (d : Z) (s1 s2 : list value) :
  tally d (s1 ++ s2) = tally d s1 + tally d s2.
Proof.
  induction s1 as [| v s1 IH]; cbn [tally app]; [reflexivity | rewrite IH; lia].
Qed.

(** X2.  The counts of a series of valid values do not depend on the order
    of the values. *)
Theorem counts_ignore_order (s1 s2 : list value) :
  Permutation s1 s2 ->
  Forall (fun v => starts_with_1_to_9 v = true) s1 ->
  exists counts : list Z,
    FrequencyCounter s1 = Ok counts /\ FrequencyCounter s2 = Ok counts.
Proof.
  intros Hperm H1.
  assert (H2 : Forall (fun v => starts_with_1_to_9 v = true) s2).
  { rewrite Forall_forall in *. intros v Hv. apply H1.
    apply (Permutation_in v (Permutation_sym Hperm) Hv). }
  exists (tallies s1). unfold FrequencyCounter.
  rewrite (FrequencyCounter_tallies s1 H1), (FrequencyCounter_tallies s2 H2).
  split; [reflexivity |]. cbn [fst]. f_equal.
  apply map_ext. intros k. symmetry. apply tally_permutation. exact Hperm.
Qed.

Local Open Scope string_scope.

Lemma counts_ignore_order_witness :
  exists counts : list Z,
    FrequencyCounter [VNum (PyInt 213); VStr "25"; VNum (PyInt 7)] = Ok counts /\
    FrequencyCounter [VStr "25"; VNum (PyInt 7); VNum (PyInt 213)] = Ok counts.
Proof.
  apply (counts_ignore_order
           [VNum (PyInt 213); VStr "25"; VNum (PyInt 7)]
           [VStr "25"; VNum (PyInt 7); VNum (PyInt 213)]).
  - apply Permutation_cons_append with (l := [VStr "25"; VNum (PyInt 7)]).
  - repeat constructor.
Defined.

Local Close Scope string_scope.

(** X3.  The counts of two series of valid values put end to end are the
    sums, digit by digit, of the counts of each. *)
Theorem counts_of_concatenation (s1 s2 : list value) :
  Forall (fun v => starts_with_1_to_9 v = true) s1 ->
  Forall (fun v => starts_with_1_to_9 v = true) s2 ->
  exists c1 c2 : list Z,
    FrequencyCounter s1 = Ok c1 /\
    FrequencyCounter s2 = Ok c2 /\
    FrequencyCounter (s1 ++ s2) = Ok (add_counts c1 c2).
Proof.
  intros H1 H2. exists (tallies s1), (tallies s2).
  assert (H12 : Forall (fun v => starts_with_1_to_9 v = true) (s1 ++ s2)).
  { apply Forall_app. split; assumption. }
  unfold FrequencyCounter.
  rewrite (FrequencyCounter_tallies s1 H1), (FrequencyCounter_tallies s2 H2),
    (FrequencyCounter_tallies (s1 ++ s2) H12).
  repeat split. cbn [fst]. f_equal. unfold tallies, add_counts. rewrite range_1_10.
  cbn [map combine fst snd]. rewrite !tally_app. reflexivity.
Qed.

Local Open Scope string_scope.
Lemma counts_of_concatenation_witness :
  exists c1 c2 : list Z,
    FrequencyCounter [VStr "25"; VNum (PyInt 7)] = Ok c1 /\
    FrequencyCounter [VNum (PyInt 213)] = Ok c2 /\
    FrequencyCounter ([VStr "25"; VNum (PyInt 7)] ++ [VNum (PyInt 213)])
    = Ok (add_counts c1 c2).
Proof.
  apply (counts_of_concatenation [VStr "25"; VNum (PyInt 7)] [VNum (PyInt 213)]);
    repeat constructor.
Defined.
Local Close Scope string_scope.

(** ** The leading digit of an [int] *)

(** The number read from digits appended to [acc] lies between [acc] and
    [acc + 1] followed by as many zeros. *)
Lemma of_uint_acc_bounds (l : Decimal.uint) (acc : positive) :
  let k := Z.of_nat (Decimal.nb_digits l) in
  Zpos acc * 10 ^ k <= Zpos (Pos.of_uint_acc l acc) < (Zpos acc + 1) * 10 ^ k.
Proof.
  cbv zeta. revert acc.
  induction l as [| l IH | l IH | l IH | l IH | l IH | l IH | l IH | l IH | l IH | l IH];
    intros acc; cbn [Decimal.nb_digits Pos.of_uint_acc];
    [cbn; lia | ..];
    rewrite Nat2Z.inj_succ, Z.pow_succ_r by lia;
    match goal with
    | |- context [Pos.of_uint_acc l ?a] => specialize (IH a)
    end;
    assert (Hp : 0 < 10 ^ Z.of_nat (Decimal.nb_digits l)) by (apply Z.pow_pos_nonneg; lia);
    nia.
Qed.

Ltac leading_digit d l Hof :=
  exists d, (Z.of_nat (Decimal.nb_digits l));
  cbn [Pos.of_uint] in Hof; injection Hof as Hof;
  let H := fresh "H" in
  pose proof (of_uint_acc_bounds l (Z.to_pos d)) as H; cbv zeta in H;
  cbn [Z.to_pos] in H; rewrite Hof in H;
  repeat split; try lia; apply H.

(** X4.  For a positive [int] of at most 4300 digits, which every
    interpreter converts to text, the extraction returns its leading
    decimal digit: a digit [d] from 1 to 9 with
    [d * 10^k <= n < (d + 1) * 10^k]. *)
Theorem first_digit_of_a_positive_int (n : Z) :
  0 < n < 10 ^ 4300 ->
  exists (d : Z) (k : Z),
    first_digit (VNum (PyInt n)) = Ok d /\
    1 <= d <= 9 /\ 0 <= k /\
    d * 10 ^ k <= n < (d + 1) * 10 ^ k.
Proof.
  intros [Hpos _]. destruct n as [| p | p]; try lia. clear Hpos.
  pose proof (DecimalPos.Unsigned.of_to p) as Hof.
  pose proof (DecimalPos.Unsigned.to_uint_nonnil p) as Hnil.
  pose proof (to_uint_normal p) as Hnorm.
  cbn [first_digit str]. unfold str_int. cbn [Z.to_int NilZero.string_of_int].
  destruct (Pos.to_uint p) as [| l | l | l | l | l | l | l | l | l | l] eqn:E.
  - contradiction Hnil. reflexivity.
  - exfalso. pose proof (unorm_leading_zero _ _ Hnorm) as ->.
    apply (DecimalPos.Unsigned.to_uint_nonzero p). exact E.
  - leading_digit 1 l Hof.
  - leading_digit 2 l Hof.
  - leading_digit 3 l Hof.
  - leading_digit 4 l Hof.
  - leading_digit 5 l Hof.
  - leading_digit 6 l Hof.
  - leading_digit 7 l Hof.
  - leading_digit 8 l Hof.
  - leading_digit 9 l Hof.
Qed.

Lemma first_digit_of_a_positive_int_witness :
  exists (d : Z) (k : Z),
    first_digit (VNum (PyInt 2024)) = Ok d /\
    1 <= d <= 9 /\ 0 <= k /\
    d * 10 ^ k <= 2024 < (d + 1) * 10 ^ k.
Proof.
  apply (first_digit_of_a_positive_int 2024).
  split; [lia | vm_compute; reflexivity].
Defined.

(** ** [plot_results] *)

Lemma res_map_pure {A B : Type} (f : A -> res B) (g : A -> B) (xs : list A) :
  (forall x, In x xs -> f x = Done (g x)) -> res_map f xs = Done (map g xs).
Proof.
  induction xs as [| x xs IH]; intros H; cbn [res_map map]; [reflexivity |].
  rewrite (H x (or_introl eq_refl)). cbn [res_bind].
  rewrite IH by (intros x' Hx'; apply H; right; exact Hx'). reflexivity.
Qed.

Lemma sum_nonneg (l : list Z) : Forall (fun c => 0 <= c) l -> 0 <= sum l.
Proof.
  induction 1 as [| x l Hx _ IH]; [reflexivity | rewrite sum_cons; lia].
Qed.

Lemma element_le_sum (l : list Z) (a : Z) :
  Forall (fun c => 0 <= c) l -> In a l -> 0 <= a <= sum l.
Proof.
  induction 1 as [| x l Hx Hl IH]; intros Hin; [destruct Hin |].
  rewrite sum_cons. pose proof (sum_nonneg l Hl).
  destruct Hin as [-> | Hin]; [lia | specialize (IH Hin); lia].
Qed.

Lemma index_is_range (n : nat) :
  map (fun i => i + 1) (range 0 (Z.of_nat n)) = range 1 (Z.of_nat n + 1).
Proof.
  unfold range. rewrite map_map.
  replace (Z.to_nat (Z.of_nat n + 1 - 1)) with (Z.to_nat (Z.of_nat n - 0)) by lia.
  apply map_ext. intros i. lia.
Qed.

(** X5.  On counts that are not empty and all 0, [plot_results] raises
    [ZeroDivisionError] at the first proportion. *)
Theorem plot_results_of_no_observation (actuals : list Z) :
  Forall (fun c => 0 <= c) actuals ->
  actuals <> [] ->
  sum actuals = 0 ->
  plot_results actuals = Fail ZeroDivisionError.
Proof.
  intros Hnn Hne Hsum. unfold plot_results. rewrite Hsum.
  change (of_result (float_of_int 0)) with (Done (Finite 0)). cbn [res_bind].
  destruct actuals as [| a rest]; [contradiction Hne; reflexivity |].
  assert (Ha : a = 0).
  { pose proof (element_le_sum _ a Hnn (or_introl eq_refl)). lia. }
  subst a. reflexivity.
Qed.

Lemma plot_results_of_no_observation_witness :
  plot_results [0; 0; 0; 0; 0; 0; 0; 0; 0] = Fail ZeroDivisionError.
Proof.
  apply (plot_results_of_no_observation [0; 0; 0; 0; 0; 0; 0; 0; 0]).
  - repeat constructor; lia.
  - discriminate.
  - reflexivity.
Defined.

Lemma plot_results_computes (actuals : list Z) :
  Forall (fun c => 0 <= c) actuals ->
  0 < sum actuals < 2 ^ 53 ->
  plot_results actuals
  = Done (range 1 (Z.of_nat (List.length actuals) + 1),
          map (fun a => round_binary64 (inject_Z a / inject_Z (sum actuals))) actuals).
Proof.
  intros Hnn [Hs0 Hs1].
  set (S := sum actuals) in *.
  assert (HS : (0 < inject_Z S)%Q) by (unfold Qlt; cbn [Qnum Qden inject_Z]; lia).
  unfold plot_results. fold S. rewrite (float_of_int_exact S) by lia.
  cbn [of_result res_bind].
  rewrite (res_map_pure _ (fun a => round_binary64 (inject_Z a / inject_Z S))).
  - cbn [res_bind]. rewrite length_map, index_is_range. reflexivity.
  - intros a Ha. pose proof (element_le_sum _ a Hnn Ha) as Hle. fold S in Hle.
    unfold int_over_float. rewrite (float_of_int_exact a) by lia.
    cbn [of_result res_bind float_div].
    destruct (Qeq_bool (inject_Z S) 0) eqn:E; [| reflexivity].
    apply Qeq_bool_iff in E. rewrite E in HS. discriminate HS.
Qed.

Lemma quotients_are_proportions (actuals : list Z) :
  Forall (fun c => 0 <= c) actuals ->
  0 < sum actuals ->
  Forall is_proportion
    (map (fun a => round_binary64 (inject_Z a / inject_Z (sum actuals))) actuals).
Proof.
  intros Hnn Hs0.
  set (S := sum actuals) in *.
  assert (HS : (0 < inject_Z S)%Q) by (unfold Qlt; cbn [Qnum Qden inject_Z]; lia).
  apply Forall_forall. intros x Hx. apply in_map_iff in Hx.
  destruct Hx as [a [<- Ha]].
  pose proof (element_le_sum _ a Hnn Ha) as Hle. fold S in Hle.
  apply round_binary64_unit.
  - apply Qle_shift_div_l; [exact HS |]. rewrite Qmult_0_l.
    unfold Qle. cbn [Qnum Qden inject_Z]. lia.
  - apply Qle_shift_div_r; [exact HS |]. rewrite Qmult_1_l.
    rewrite <- Zle_Qle. lia.
Qed.

(** X6.  On nonnegative counts with a positive sum below 2^53,
    [plot_results] draws at the positions 1 to the number of counts, with
    heights the binary64 quotients of the counts by their sum, each a finite
    number between 0 and 1. *)
Theorem plot_results_proportions (actuals : list Z) :
  Forall (fun c => 0 <= c) actuals ->
  0 < sum actuals < 2 ^ 53 ->
  exists proportions : list float64,
    plot_results actuals
    = Done (range 1 (Z.of_nat (List.length actuals) + 1), proportions) /\
    proportions
    = map (fun a => round_binary64 (inject_Z a / inject_Z (sum actuals))) actuals /\
    Forall is_proportion proportions.
Proof.
  intros Hnn Hs. eexists. split; [| split; [reflexivity |]].
  - apply plot_results_computes; assumption.
  - apply quotients_are_proportions; [exact Hnn | lia].
Qed.

Lemma plot_results_proportions_witness :
  exists proportions : list float64,
    plot_results [2; 0; 0; 0; 0; 0; 1; 0; 0]
    = Done (range 1 (Z.of_nat (List.length [2; 0; 0; 0; 0; 0; 1; 0; 0]) + 1), proportions) /\
    proportions
    = map (fun a => round_binary64 (inject_Z a / inject_Z (sum [2; 0; 0; 0; 0; 0; 1; 0; 0])))
          [2; 0; 0; 0; 0; 0; 1; 0; 0] /\
    Forall is_proportion proportions.
Proof.
  apply (plot_results_proportions [2; 0; 0; 0; 0; 0; 1; 0; 0]).
  - repeat constructor; lia.
  - split; [reflexivity | vm_compute; reflexivity].
Defined.

Lemma tallies_nonneg (series : list value) :
  Forall (fun c => 0 <= c) (tallies series).
Proof.
  apply Forall_forall. intros c Hc. apply in_map_iff in Hc.
  destruct Hc as [k [<- _]]. apply tally_nonneg.
Qed.

(** X10.  For a series of valid values that is not empty and has fewer than
    2^53 values, the chart drawn from its counts has nine bars at the
    positions 1 to 9, each of a height between 0 and 1. *)
Theorem chart_of_a_valid_series (series : list value) :
  Forall (fun v => starts_with_1_to_9 v = true) series ->
  series <> [] ->
  Z.of_nat (List.length series) < 2 ^ 53 ->
  exists (counts : list Z) (proportions : list float64),
    FrequencyCounter series = Ok counts /\
    plot_results counts = Done ([1; 2; 3; 4; 5; 6; 7; 8; 9], proportions) /\
    List.length proportions = 9%nat /\
    Forall is_proportion proportions.
Proof.
  intros Hvalid Hne Hlen.
  pose proof (FrequencyCounter_tallies series Hvalid) as Hrun.
  pose proof (tally_total series Hvalid) as Hsum.
  fold (tallies series) in Hrun, Hsum.
  assert (Hpos : 0 < sum (tallies series) < 2 ^ 53).
  { rewrite Hsum. split; [| exact Hlen].
    destruct series; [contradiction Hne; reflexivity | cbn [List.length]; lia]. }
  exists (tallies series). eexists.
  split; [unfold FrequencyCounter; rewrite Hrun; reflexivity |].
  split; [exact (plot_results_computes _ (tallies_nonneg series) Hpos) |].
  split; [rewrite length_map; reflexivity |].
  apply quotients_are_proportions; [apply tallies_nonneg | lia].
Qed.

Local Open Scope string_scope.

Lemma chart_of_a_valid_series_witness :
  exists (counts : list Z) (proportions : list float64),
    FrequencyCounter [VNum (PyInt 123); VStr "789"; VNum (PyInt 15)] = Ok counts /\
    plot_results counts = Done ([1; 2; 3; 4; 5; 6; 7; 8; 9], proportions) /\
    List.length proportions = 9%nat /\
    Forall is_proportion proportions.
Proof.
  apply (chart_of_a_valid_series [VNum (PyInt 123); VStr "789"; VNum (PyInt 15)]).
  - repeat constructor.
  - discriminate.
  - reflexivity.
Defined.

(** ** The sum and the zeros of the expected counts *)

(** X7.  For every total below 2^48 the expected counts sum to the total
    within 4. *)
Theorem expected_counts_sum_near_total (total : Z) :
  0 <= total < 2 ^ 48 ->
  exists counts : list Z,
    get_expected_counts total = Ok counts /\
    Z.abs (sum counts - total) <= 4.
Proof.
  intros [H0 H1]. destruct (Z.eq_dec total 0) as [-> | Hn].
  { exists [0; 0; 0; 0; 0; 0; 0; 0; 0]. split; [vm_compute; reflexivity | cbn; lia]. }
  destruct (expected_counts_enclosure total ltac:(lia)) as [counts [Hcounts Hnear]].
  exists counts. split; [exact Hcounts |]. clear Hcounts.
  nine_counts Hnear.
  repeat rewrite sum_cons. change (sum []) with 0.
  assert (Hn0 : (1 <= inject_Z total)%Q).
  { change 1%Q with (inject_Z 1). rewrite <- Zle_Qle. lia. }
  assert (Hn1 : (inject_Z total <= 281474976710656)%Q).
  { change 281474976710656%Q with (inject_Z (2 ^ 48)). rewrite <- Zle_Qle. lia. }
  match goal with
  | |- Z.abs ?d <= 4 => assert (Hq : (-5 < inject_Z d)%Q /\ (inject_Z d < 5)%Q)
  end.
  { unfold Zminus. rewrite !inject_Z_plus, inject_Z_opp.
    change (inject_Z 0) with 0%Q. clear H0 H1 Hn.
    as_rationals total. split; lra. }
  destruct Hq as [Hq1 Hq2].
  change (-5)%Q with (inject_Z (-5)) in Hq1. change 5%Q with (inject_Z 5) in Hq2.
  rewrite <- Zlt_Qlt in Hq1, Hq2. lia.
Qed.

Lemma expected_counts_sum_near_total_witness :
  exists counts : list Z,
    get_expected_counts 2500 = Ok counts /\ Z.abs (sum counts - 2500) <= 4.
Proof.
  apply (expected_counts_sum_near_total 2500). split; [lia | reflexivity].
Defined.

(** X8.  For every total below 2^48, one of the expected counts is 0 exactly
    when the total is at most 10. *)
Theorem expected_zero_iff_small_total (total : Z) :
  0 <= total < 2 ^ 48 ->
  exists counts : list Z,
    get_expected_counts total = Ok counts /\
    (In 0 counts <-> total <= 10).
Proof.
  intros [H0 H1].
  destruct (Z.le_gt_cases total 11) as [Hsmall | Hlarge].
  - assert (Hcases : total = 0 \/ total = 1 \/ total = 2 \/ total = 3 \/ total = 4 \/
                     total = 5 \/ total = 6 \/ total = 7 \/ total = 8 \/ total = 9 \/
                     total = 10 \/ total = 11) by lia.
    repeat (destruct Hcases as [-> | Hcases]); try subst total;
      (eexists; split; [vm_compute; reflexivity |]);
      cbn [In]; split; intros; lia.
  - destruct (expected_counts_enclosure total ltac:(lia)) as [counts [Hcounts Hnear]].
    exists counts. split; [exact Hcounts |]. clear Hcounts.
    split; [| lia]. intros Hin. exfalso.
    nine_counts Hnear.
    assert (Hn0 : (12 <= inject_Z total)%Q).
    { change 12%Q with (inject_Z 12). rewrite <- Zle_Qle. lia. }
    assert (Hpos : forall z, (0 < inject_Z z)%Q -> z <> 0).
    { intros z Hz ->. discriminate Hz. }
    cbn [In] in Hin.
    repeat (destruct Hin as [Hin | Hin];
            [revert Hin; apply Hpos; clear Hpos H0 H1 Hlarge;
             as_rationals total; lra |]).
    exact Hin.
Qed.

Lemma expected_zero_iff_small_total_witness :
  exists counts : list Z,
    get_expected_counts 10 = Ok counts /\ (In 0 counts <-> 10 <= 10).
Proof.
  apply (expected_zero_iff_small_total 10). split; [lia | reflexivity].
Defined.

(** ** [main] and the batch loop *)

Section ProgramFacts.

Variable load_data : string -> res (list value).
Variable chisquare : list Z -> list Z -> res (float64 * float64).
Variable path_join : string -> string -> string.

(** X9.  When counting the loaded series raises, [main] raises the same
    exception and has printed nothing. *)
Theorem main_prints_nothing_on_a_bad_value
    (data_file : string) (series : list value) (e : exn) :
  load_data data_file = Done series ->
  first_error series = Some e ->
  main load_data chisquare data_file = ([], Fail (Exn e)).
Proof.
  intros Hload Herr. unfold main, w_bind, w_lift. rewrite Hload.
  destruct (first_error_some series e Herr) as [pre [v [post [-> [Hpre Hv]]]]].
  cbv beta iota. unfold FrequencyCounter.
  rewrite (FrequencyCounter_fails_at pre post v e Hpre (count_error_some v e Hv)).
  reflexivity.
Qed.

Lemma batch_app (xs ys : list string) :
  batch load_data chisquare path_join (xs ++ ys)
  = (batch load_data chisquare path_join xs
     ++ batch load_data chisquare path_join ys)%list.
Proof.
  induction xs as [| x xs IH]; cbn [batch app]; [reflexivity |].
  destruct (main load_data chisquare (path_join data_dir x)) as [out r].
  rewrite IH. cbn [app]. rewrite <- !app_assoc. reflexivity.
Qed.

(** X11.  A file on which [main] raises contributes to what the batch
    prints its name, what [main] printed before raising and the exception;
    the exception is caught there, and the files before and after are
    processed as they are on their own. *)
Theorem batch_goes_on_after_a_failure
    (pre post : list string) (data_file : string)
    (out : list event) (e : exception) :
  main load_data chisquare (path_join data_dir data_file) = (out, Fail e) ->
  batch load_data chisquare path_join (pre ++ data_file :: post)
  = (batch load_data chisquare path_join pre
     ++ (Testing data_file :: out ++ [ErrorPrinted e])
     ++ batch load_data chisquare path_join post)%list.
Proof.
  intros Hmain. rewrite batch_app. f_equal.
  cbn [batch]. rewrite Hmain. cbn [app]. rewrite <- app_assoc. reflexivity.
Qed.

End ProgramFacts.

Lemma main_prints_nothing_on_a_bad_value_witness :
  main (fun _ => Done [VNum (PyInt 12); VNum (PyFloat (FDec false "456" (-1)))])
       (fun _ _ => Done (NaN, NaN)) "a.csv"
  = ([], Fail (Exn (KeyError 0))).
Proof.
  apply (main_prints_nothing_on_a_bad_value
           (fun _ => Done [VNum (PyInt 12); VNum (PyFloat (FDec false "456" (-1)))])
           (fun _ _ => Done (NaN, NaN))
           "a.csv" [VNum (PyInt 12); VNum (PyFloat (FDec false "456" (-1)))]
           (KeyError 0)); reflexivity.
Defined.

(** A directory of three files, the second of which holds a negative
    number; the library is never reached for that file. *)
Lemma batch_goes_on_after_a_failure_witness :
  batch (fun path => if String.eqb path ".\data/b.csv"
                     then Done [VNum (PyInt (-5))]
                     else Done [VNum (PyInt 12); VNum (PyInt 7)])
        (fun _ _ => Done (Finite 0, Finite 1))
        (fun dir name => String.append dir (String.append "/" name))
        (["a.csv"] ++ "b.csv" :: ["c.csv"])%list
  = (batch (fun path => if String.eqb path ".\data/b.csv"
                       then Done [VNum (PyInt (-5))]
                       else Done [VNum (PyInt 12); VNum (PyInt 7)])
          (fun _ _ => Done (Finite 0, Finite 1))
          (fun dir name => String.append dir (String.append "/" name))
          ["a.csv"]
    ++ (Testing "b.csv" :: [] ++ [ErrorPrinted (Exn (ValueError (InvalidLiteral "-")))])
    ++ batch (fun path => if String.eqb path ".\data/b.csv"
                          then Done [VNum (PyInt (-5))]
                          else Done [VNum (PyInt 12); VNum (PyInt 7)])
             (fun _ _ => Done (Finite 0, Finite 1))
             (fun dir name => String.append dir (String.append "/" name))
             ["c.csv"])%list.
Proof.
  apply (batch_goes_on_after_a_failure
           (fun path => if String.eqb path ".\data/b.csv"
                        then Done [VNum (PyInt (-5))]
                        else Done [VNum (PyInt 12); VNum (PyInt 7)])
           (fun _ _ => Done (Finite 0, Finite 1))
           (fun dir name => String.append dir (String.append "/" name))
           ["a.csv"] ["c.csv"] "b.csv" []
           (Exn (ValueError (InvalidLiteral "-")))).
  vm_compute. reflexivity.
Defined.
